(** * ollama-proxy: the translation core of [ollama_proxy.py]

    A shallow embedding of the request/response translation of the proxy:
    the response cleaner [clean_lm_response], the prompt compiler
    [convert_messages_to_prompt], the streaming client
    [stream_chat_response] and the two route handlers [chat_completions]
    and [generate_ollama].

    Python values are modelled as follows.
    - [str] is a sequence of Unicode code points ([list N]).
    - JSON-like objects (request messages, upstream replies, response
      bodies) are the inductive type [value]; a [dict] is an association
      list read from the left.
    - A raised exception is the [Raise] case of [result].
    - The upstream HTTP exchange is an input of the handlers: what the
      backend answers is a value of [post_outcome] (unary call) or
      [stream_behaviour] (streamed call). *)

From Stdlib Require Import String Ascii DecimalString Floats.SpecFloat.
From Stdlib Require Import NArith ZArith Bool Lia List.
Import ListNotations.

Set Warnings "-register-all".

(** ** Python strings *)

Module PyStr.

Definition char := N.
Definition str := list char.

(** A string literal of the source, as code points (ASCII literals only). *)
Definition py (s : string) : str := map N_of_ascii (list_ascii_of_string s).

Definition NL : char := 10%N.

Fixpoint eqb (a b : str) : bool :=
  match a, b with
  | [], [] => true
  | x :: a', y :: b' => N.eqb x y && eqb a' b'
  | _, _ => false
  end.

(** [str.isspace] for one code point; [str.strip()] and the regular
    expression class [\s] of a [str] pattern both use this table. *)
Definition isspace (c : char) : bool :=
  ((9 <=? c) && (c <=? 13) || (28 <=? c) && (c <=? 32)
   || (c =? 133) || (c =? 160) || (c =? 5760)
   || (8192 <=? c) && (c <=? 8202)
   || (c =? 8232) || (c =? 8233) || (c =? 8239) || (c =? 8287)
   || (c =? 12288))%N.

Fixpoint lstrip (s : str) : str :=
  match s with
  | [] => []
  | c :: s' => if isspace c then lstrip s' else s
  end.

Definition rstrip (s : str) : str := rev (lstrip (rev s)).

(** [text.strip()] *)
Definition strip (s : str) : str := rstrip (lstrip s).

(** ["sep".join(parts)] *)
Fixpoint join (sep : str) (parts : list str) : str :=
  match parts with
  | [] => []
  | [p] => p
  | p :: ps => p ++ sep ++ join sep ps
  end.

(** [str(n)] for an [int]. *)
Definition str_of_int (n : Z) : str := py (NilZero.string_of_int (Z.to_int n)).

End PyStr.
Import PyStr.

(** ** The two substitutions of the cleaner

    Both [re.sub] calls of [clean_lm_response] use the empty replacement and
    [re.IGNORECASE].  A matcher consumes a prefix of its input and returns
    the rest, or fails. *)

Module Re.

Definition matcher := str -> option str.

Definition ascii_lower (c : char) : char :=
  if ((65 <=? c) && (c <=? 90))%N then (c + 32)%N else c.

(** Does text character [c] match the pattern literal [p] (an ASCII
    character) under [re.IGNORECASE]?  Besides the two ASCII cases, the
    [str] matcher accepts U+0130 and U+0131 for [i], U+017F for [s] and
    U+212A for [k]. *)
Definition ci_match (p c : char) : bool :=
  let lp := ascii_lower p in
  ((ascii_lower c =? lp)
   || (lp =? 105) && ((c =? 304) || (c =? 305))
   || (lp =? 115) && (c =? 383)
   || (lp =? 107) && (c =? 8490))%N.

(** A literal, character by character. *)
Fixpoint literal (p : str) : matcher := fun s =>
  match p with
  | [] => Some s
  | pc :: p' =>
      match s with
      | c :: s' => if ci_match pc c then literal p' s' else None
      | [] => None
      end
  end.

(** [\s*]: greedy, never fails. *)
Definition spaces : matcher := fun s => Some (lstrip s).

Definition seq (m1 m2 : matcher) : matcher := fun s =>
  match m1 s with
  | Some r => m2 r
  | None => None
  end.

(** [a|b|...]: the first alternative that matches. *)
Fixpoint alt (ms : list matcher) : matcher := fun s =>
  match ms with
  | [] => None
  | m :: ms' =>
      match m s with
      | Some r => Some r
      | None => alt ms' s
      end
  end.

(** [( ... )*], greedy; [fuel] bounds the number of iterations. *)
Fixpoint many (fuel : nat) (m : matcher) (s : str) : str :=
  match fuel with
  | O => s
  | S fuel' =>
      match m s with
      | Some r => many fuel' m r
      | None => s
      end
  end.

(** [( ... )+], greedy.  What follows the group in the pattern of the
    source is [\s*], which cannot fail, so the longest run is the match. *)
Definition plus (m : matcher) : matcher := fun s =>
  match m s with
  | Some r => Some (many (length r) m r)
  | None => None
  end.

(** [re.sub(pattern, '', text)] for an unanchored pattern that matches no
    empty string: scan left to right, drop each match, go on after it. *)
Fixpoint sub_all (fuel : nat) (m : matcher) (s : str) : str :=
  match fuel with
  | O => s
  | S fuel' =>
      match m s with
      | Some r => sub_all fuel' m r
      | None =>
          match s with
          | [] => []
          | c :: s' => c :: sub_all fuel' m s'
          end
      end
  end.

(** [re.sub('^...', '', text)] without [re.MULTILINE]: the pattern can only
    match at position 0. *)
Definition sub_start (m : matcher) (s : str) : str :=
  match m s with
  | Some r => r
  | None => s
  end.

(** Is there a position of [s] where [m] matches? *)
Fixpoint occurs (m : matcher) (s : str) : bool :=
  match m s with
  | Some _ => true
  | None =>
      match s with
      | [] => false
      | _ :: s' => occurs m s'
      end
  end.

End Re.
Import Re.

(** ** Response cleaner: [clean_lm_response] *)

Definition MARKER : str := py "<|im_start|>Assistant###".

(** [r'<\|im_start\|>Assistant###\s*'] *)
Definition marker_re : matcher := seq (literal MARKER) spaces.

(** The alternatives of the group of the second pattern, as the source
    writes them: the bars of [<|im_start|>] are not escaped there, so they
    separate the alternatives [<], [im_start] and [>]. *)
Definition LABELS : list str :=
  [py "ASSISTANT###"; py "ASSISTANT:"; py "<"; py "im_start"; py ">"].

Definition label_alt : matcher := alt (map literal LABELS).

(** [r'^(ASSISTANT###|ASSISTANT:|<|im_start|>)+\s*'] *)
Definition labels_re : matcher := seq (plus label_alt) spaces.

Definition remove_markers (s : str) : str := sub_all (length s) marker_re s.
Definition remove_leading_labels (s : str) : str := sub_start labels_re s.

Definition clean_lm_response (text : str) : str :=
  let text := strip text in
  let text := remove_markers text in
  let text := remove_leading_labels text in
  text.

Definition contains_marker (s : str) : bool := occurs (literal MARKER) s.
Definition starts_with_label (s : str) : bool :=
  match label_alt s with Some _ => true | None => false end.

(** ** Python objects and exceptions *)

Inductive exn :=
| AttributeError
| TypeError
| KeyError
| IndexError
| JSONDecodeError
| ResponseNotRead
| HTTPException (status_code : Z) (detail : str).

Inductive result (A : Type) :=
| Ok (a : A)
| Raise (e : exn).
Arguments Ok {A} a.
Arguments Raise {A} e.

Definition bind {A B} (r : result A) (k : A -> result B) : result B :=
  match r with
  | Ok a => k a
  | Raise e => Raise e
  end.

Notation "x <- e ;; k" := (bind e (fun x => k))
  (at level 61, e at next level, right associativity).

(** Evaluate [f] on the items from left to right; the first exception wins. *)
Fixpoint map_result {A B} (f : A -> result B) (l : list A) : result (list B) :=
  match l with
  | [] => Ok []
  | a :: l' => b <- f a ;; bs <- map_result f l' ;; Ok (b :: bs)
  end.

(** What [json] decoding produces and what a handler returns.  The keys of
    a [VDict] are pairwise distinct; the leftmost binding is the one read. *)
Inductive value :=
| VNone
| VBool (b : bool)
| VInt (n : Z)
| VFloat (f : spec_float)
| VStr (s : str)
| VList (items : list value)
| VDict (entries : list (str * value)).

Fixpoint lookup {V} (k : str) (d : list (str * V)) : option V :=
  match d with
  | [] => None
  | (k', v) :: d' => if PyStr.eqb k k' then Some v else lookup k d'
  end.

(** [v.get(k, default)] *)
Definition dict_get (v : value) (k : str) (default : value) : result value :=
  match v with
  | VDict d => Ok (match lookup k d with Some x => x | None => default end)
  | _ => Raise AttributeError
  end.

(** [v[k]] for a [str] key *)
Definition getitem (v : value) (k : str) : result value :=
  match v with
  | VDict d => match lookup k d with Some x => Ok x | None => Raise KeyError end
  | _ => Raise TypeError
  end.

(** [v[0]] *)
Definition getitem0 (v : value) : result value :=
  match v with
  | VList (x :: _) => Ok x
  | VList [] => Raise IndexError
  | VStr (c :: _) => Ok (VStr [c])
  | VStr [] => Raise IndexError
  | VDict _ => Raise KeyError
  | _ => Raise TypeError
  end.

(** [for x in v] *)
Definition iter (v : value) : result (list value) :=
  match v with
  | VList l => Ok l
  | VDict d => Ok (map (fun kv => VStr (fst kv)) d)
  | VStr s => Ok (map (fun c => VStr [c]) s)
  | _ => Raise TypeError
  end.

(** ["sep".join(items)]: every item has to be a [str]. *)
Definition as_str (v : value) : result str :=
  match v with
  | VStr s => Ok s
  | _ => Raise TypeError
  end.

Definition join_values (sep : str) (items : list value) : result str :=
  parts <- map_result as_str items ;; Ok (join sep parts).

(** The parts of the Python runtime that are tables of the interpreter:
    the upper-case mapping of the code points above ASCII and the text
    [format(v, '')] gives for an object that is not a [str]. *)
Class Builtins := {
  unicode_upper : char -> str;
  format_object : value -> str
}.

Section PromptCompiler.

Context {B : Builtins}.

Definition upper_char (c : char) : str :=
  if (c <? 128)%N
  then [if ((97 <=? c) && (c <=? 122))%N then (c - 32)%N else c]
  else unicode_upper c.

(** [s.upper()] *)
Definition upper (s : str) : str := flat_map upper_char s.

(** [role.upper()] *)
Definition method_upper (v : value) : result str :=
  match v with
  | VStr s => Ok (upper s)
  | _ => Raise AttributeError
  end.

(** A replacement field [{content}] of an f-string. *)
Definition format_field (v : value) : str :=
  match v with
  | VStr s => s
  | _ => format_object v
  end.

(** [[item["text"] for item in content if isinstance(item, dict) and "text" in item]] *)
Definition fragment_texts (content : list value) : list value :=
  flat_map (fun item =>
    match item with
    | VDict d => match lookup (py "text") d with Some t => [t] | None => [] end
    | _ => []
    end) content.

(** The body of the loop: the text appended to [prompt] for one message. *)
Definition message_line (msg : value) : result str :=
  role <- dict_get msg (py "role") (VStr (py "user")) ;;
  content <- dict_get msg (py "content") (VStr []) ;;
  content <- match content with
             | VList items =>
                 s <- join_values [NL] (fragment_texts items) ;; Ok (VStr s)
             | _ => Ok content
             end ;;
  ROLE <- method_upper role ;;
  Ok (ROLE ++ py ": " ++ format_field content ++ [NL]).

Fixpoint prompt_loop (prompt : str) (messages : list value) : result str :=
  match messages with
  | [] => Ok prompt
  | msg :: rest => line <- message_line msg ;; prompt_loop (prompt ++ line) rest
  end.

Definition convert_messages_to_prompt (messages : list value) : result str :=
  prompt <- prompt_loop [] messages ;; Ok (strip prompt).

End PromptCompiler.

(** ** Requests, payload, upstream behaviour *)

Module ChatRequest.
Record t := {
  model : str;
  messages : list value;
  stream : bool;
  temperature : spec_float;
  max_tokens : Z;
  tools : option (list value)
}.
End ChatRequest.

Module OllamaRequest.
Record t := {
  model : str;
  prompt : str;
  stream : bool;
  temperature : spec_float;
  max_tokens : Z
}.
End OllamaRequest.

(** The JSON body posted to [LM_STUDIO_API]. *)
Module Payload.
Record t := {
  model : str;
  prompt : str;
  temperature : spec_float;
  max_tokens : Z;
  stream : bool
}.
End Payload.

Definition MODEL_MAP : list (str * str) :=
  [(py "qwen2.5", py "qwen2.5-coder-32b-instruct-mlx")].

(** [MODEL_MAP.get(name, name)] *)
Definition resolve_model (name : str) : str :=
  match lookup name MODEL_MAP with
  | Some internal => internal
  | None => name
  end.

Module httpx.

(** A response of the backend: [json] is what [response.json()] decodes
    from the body, [None] when the body is not JSON. *)
Record Response := {
  status_code : Z;
  text : str;
  json : option value
}.

(** [raise_for_status] passes the 2xx codes. *)
Definition is_success (status : Z) : bool := ((200 <=? status) && (status <=? 299))%Z.

(** Failures of the transport: [httpx.TimeoutException], or another
    [httpx.RequestError] with its [str(e)]. *)
Inductive transport_failure :=
| TimeoutException
| RequestError (message : str).

(** How [client.post] ends. *)
Inductive post_outcome :=
| Responded (response : Response)
| PostFailed (f : transport_failure).

(** How [client.stream] goes: no response at all, or a status line with
    the body text, the chunks [aiter_text] delivers and how the body
    ends. *)
Inductive stream_behaviour :=
| StreamNotOpened (f : transport_failure)
| StreamOpened (status : Z) (body_text : str) (chunks : list str)
               (ending : option transport_failure).

End httpx.
Import httpx.

(** ** Streaming client: [stream_chat_response]

    What the generator does: the chunks it yields, in order, and the
    exception that leaves it, if any. *)
Record generated := {
  yielded : list str;
  raised : option exn
}.

Definition stream_error_chunk (f : transport_failure) : str :=
  match f with
  | TimeoutException => py "ERROR: LM Studio request timed out"
  | RequestError message => py "ERROR: Request failed: " ++ message
  end.

(** [e.response.text] in the handler of [HTTPStatusError], where
    [e.response] is the response of [client.stream]: [client.post] reads
    the body before it returns, [client.stream] leaves it to the caller,
    and this generator has read nothing when [raise_for_status] raises.
    httpx answers [.text] on a response whose body was not read with
    [ResponseNotRead]. *)
Definition unread_text (body_text : str) : result str := Raise ResponseNotRead.

Definition stream_chat_response (request_data : Payload.t)
    (upstream : stream_behaviour) : generated :=
  match upstream with
  | StreamNotOpened f => {| yielded := [stream_error_chunk f]; raised := None |}
  | StreamOpened status body_text chunks ending =>
      if is_success status
      then {| yielded := chunks ++ match ending with
                                   | None => []
                                   | Some f => [stream_error_chunk f]
                                   end;
              raised := None |}
      else match unread_text body_text with
           | Ok text =>
               {| yielded := [py "ERROR: LM Studio returned " ++ str_of_int status
                              ++ py ": " ++ text];
                  raised := None |}
           | Raise e => {| yielded := []; raised := Some e |}
           end
  end.

(** ** Route handlers

    A handler either raises before it calls the backend, or returns a
    [StreamingResponse] over [stream_chat_response payload], or posts
    [payload] once and continues with the outcome. *)
Inductive handled :=
| Failed (e : exn)
| StreamingResponse (payload : Payload.t)
| Post (payload : Payload.t) (continue : post_outcome -> result value).

(** The [try] block around [client.post] and [raise_for_status]. *)
Definition post_and_check (outcome : post_outcome) : result Response :=
  match outcome with
  | Responded response =>
      if is_success (status_code response)
      then Ok response
      else Raise (HTTPException (status_code response)
                    (py "LM Studio error: " ++ text response))
  | PostFailed TimeoutException =>
      Raise (HTTPException 504 (py "LM Studio request timed out"))
  | PostFailed (RequestError message) =>
      Raise (HTTPException 500 (py "Request error: " ++ message))
  end.

(** [response.json()] *)
Definition response_json (response : Response) : result value :=
  match json response with
  | Some v => Ok v
  | None => Raise JSONDecodeError
  end.

(** [clean_lm_response(choice["text"])]: [text.strip()] needs a [str]. *)
Definition clean_value (v : value) : result value :=
  match v with
  | VStr s => Ok (VStr (clean_lm_response s))
  | _ => Raise AttributeError
  end.

Definition openai_choice (choice : value) : result value :=
  index <- getitem choice (py "index") ;;
  text <- getitem choice (py "text") ;;
  content <- clean_value text ;;
  finish_reason <- getitem choice (py "finish_reason") ;;
  Ok (VDict [(py "index", index);
             (py "message", VDict [(py "role", VStr (py "assistant"));
                                   (py "content", content)]);
             (py "finish_reason", finish_reason)]).

Definition openai_response (model_name : str) (lm_response : value) : result value :=
  id <- getitem lm_response (py "id") ;;
  created <- getitem lm_response (py "created") ;;
  all_choices <- getitem lm_response (py "choices") ;;
  each <- iter all_choices ;;
  choices <- map_result openai_choice each ;;
  usage <- getitem lm_response (py "usage") ;;
  Ok (VDict [(py "id", id);
             (py "object", VStr (py "chat.completion"));
             (py "created", created);
             (py "model", VStr model_name);
             (py "choices", VList choices);
             (py "usage", usage)]).

Definition chat_completions {B : Builtins} (request : ChatRequest.t) : handled :=
  let model_name := resolve_model (ChatRequest.model request) in
  match convert_messages_to_prompt (ChatRequest.messages request) with
  | Raise e => Failed e
  | Ok prompt =>
      let lm_studio_payload :=
        {| Payload.model := model_name;
           Payload.prompt := prompt;
           Payload.temperature := ChatRequest.temperature request;
           Payload.max_tokens := ChatRequest.max_tokens request;
           Payload.stream := ChatRequest.stream request |} in
      if ChatRequest.stream request
      then StreamingResponse lm_studio_payload
      else Post lm_studio_payload (fun outcome =>
             response <- post_and_check outcome ;;
             lm_response <- response_json response ;;
             openai_response model_name lm_response)
  end.

Definition ollama_response (model_name : str) (lm_response : value) : result value :=
  created_at <- dict_get lm_response (py "created") (VStr []) ;;
  all_choices <- dict_get lm_response (py "choices") (VList [VDict []]) ;;
  first <- getitem0 all_choices ;;
  response <- dict_get first (py "text") (VStr []) ;;
  Ok (VDict [(py "model", VStr model_name);
             (py "created_at", created_at);
             (py "response", response);
             (py "done", VBool true)]).

Definition generate_ollama (request : OllamaRequest.t) : handled :=
  let model_name := OllamaRequest.model request in
  let lm_studio_payload :=
    {| Payload.model := model_name;
       Payload.prompt := OllamaRequest.prompt request;
       Payload.temperature := OllamaRequest.temperature request;
       Payload.max_tokens := OllamaRequest.max_tokens request;
       Payload.stream := OllamaRequest.stream request |} in
  if OllamaRequest.stream request
  then StreamingResponse lm_studio_payload
  else Post lm_studio_payload (fun outcome =>
         response <- post_and_check outcome ;;
         lm_response <- response_json response ;;
         ollama_response model_name lm_response).

(** What the handler sends to the backend, if anything. *)
Definition sent_upstream (h : handled) : option Payload.t :=
  match h with
  | Failed _ => None
  | StreamingResponse payload => Some payload
  | Post payload _ => Some payload
  end.

(** The result of a handler once the backend has answered [outcome]
    ([None] for a streamed exchange, which has no translated result). *)
Definition outcome_of (h : handled) (outcome : post_outcome) : option (result value) :=
  match h with
  | Failed e => Some (Raise e)
  | StreamingResponse _ => None
  | Post _ continue => Some (continue outcome)
  end.

(** The status the framework answers with: an [HTTPException] carries its
    own, any other exception that leaves a handler is a 500. *)
Definition downstream_status (r : result value) : Z :=
  match r with
  | Ok _ => 200
  | Raise (HTTPException status _) => status
  | Raise _ => 500
  end.

(** ** Vocabulary of the statements *)

(** [m] is the pattern literal [p] up to case (as [re.IGNORECASE] sees it). *)
Definition caseless (p m : str) : Prop :=
  Forall2 (fun pc c => ci_match pc c = true) p m.

(** One of the two assistant labels of the second pattern, up to case. *)
Definition assistant_label (l : str) : Prop :=
  caseless (py "ASSISTANT###") l \/ caseless (py "ASSISTANT:") l.

(** A matcher that consumes at least one character whenever it matches. *)
Definition consuming (m : matcher) : Prop :=
  forall s r, m s = Some r -> (length r < length s)%nat.

(** A fragment of a structured content that the compiler can take: one
    that is skipped, or one whose [text] is a [str]. *)
Definition fragment_ok (item : value) : bool :=
  match item with
  | VDict d =>
      match lookup (py "text") d with
      | Some (VStr _) | None => true
      | Some _ => false
      end
  | _ => true
  end.

Definition role_ok (d : list (str * value)) : bool :=
  match lookup (py "role") d with
  | Some (VStr _) | None => true
  | Some _ => false
  end.

(** A [ChatMessage] of the data model: an object whose role, if any, is a
    string and whose content is a string or a sequence of fragments. *)
Definition chat_message (msg : value) : bool :=
  match msg with
  | VDict d =>
      role_ok d &&
      match lookup (py "content") d with
      | Some (VStr _) => true
      | Some (VList items) => forallb fragment_ok items
      | _ => false
      end
  | _ => false
  end.

(** The messages [convert_messages_to_prompt] accepts: as [chat_message],
    with the content also absent or of any type that is not a list. *)
Definition compilable (msg : value) : bool :=
  match msg with
  | VDict d =>
      role_ok d &&
      match lookup (py "content") d with
      | Some (VList items) => forallb fragment_ok items
      | _ => true
      end
  | _ => false
  end.

(** The prompt compiler as the specification words it. *)
Module PromptSpec.
Section PromptSpec.
Context {B : Builtins}.

(** The role of a message, "user" when absent. *)
Definition role_of (msg : value) : str :=
  match msg with
  | VDict d =>
      match lookup (py "role") d with
      | Some (VStr r) => r
      | _ => py "user"
      end
  | _ => py "user"
  end.

(** The texts of the fragments that carry a text field, in order. *)
Fixpoint texts (fragments : list value) : list str :=
  match fragments with
  | [] => []
  | VDict d :: rest =>
      match lookup (py "text") d with
      | Some (VStr t) => t :: texts rest
      | _ => texts rest
      end
  | _ :: rest => texts rest
  end.

(** A string content verbatim; a sequence content as the newline-join of
    its texts. *)
Definition content_of (msg : value) : str :=
  match msg with
  | VDict d =>
      match lookup (py "content") d with
      | Some (VStr s) => s
      | Some (VList fragments) => join [NL] (texts fragments)
      | _ => []
      end
  | _ => []
  end.

(** ["<ROLE-UPPERCASE>: <content>"] *)
Definition line (msg : value) : str :=
  upper (role_of msg) ++ py ": " ++ content_of msg.

(** The lines joined by newlines, the result trimmed. *)
Definition compiled (messages : list value) : str :=
  strip (join [NL] (map line messages)).

End PromptSpec.
End PromptSpec.

(** An instance of the tables for running the handlers on closed inputs.
    It gives Python's text for the objects [None], [True], [False] and the
    integers, and leaves the code points above ASCII as they are; it is
    meant for inputs whose roles are ASCII and whose contents are strings,
    fragment lists, [None], booleans or integers.  The text of a float or
    of an object ([dict]) content is not given by it. *)
Definition sample_builtins : Builtins :=
  {| unicode_upper := fun c => [c];
     format_object := fun v =>
       match v with
       | VNone => py "None"
       | VBool true => py "True"
       | VBool false => py "False"
       | VInt n => str_of_int n
       | VStr s => s
       | _ => []
       end |}.

(** Two non-streaming requests for the closed examples. *)
Definition sample_chat_request : ChatRequest.t :=
  {| ChatRequest.model := py "qwen2.5";
     ChatRequest.messages :=
       [VDict [(py "role", VStr (py "user")); (py "content", VStr (py "hi"))]];
     ChatRequest.stream := false;
     ChatRequest.temperature := S754_zero false;
     ChatRequest.max_tokens := 512;
     ChatRequest.tools := None |}.

Definition sample_generate_request : OllamaRequest.t :=
  {| OllamaRequest.model := py "qwen2.5";
     OllamaRequest.prompt := py "hi";
     OllamaRequest.stream := false;
     OllamaRequest.temperature := S754_zero false;
     OllamaRequest.max_tokens := 512 |}.

(** Field [k] is absent from the object [v]. *)
Definition lacks (k : str) (v : value) : bool :=
  match v with
  | VDict d => match lookup k d with None => true | Some _ => false end
  | _ => false
  end.

Definition choice_incomplete (choice : value) : bool :=
  lacks (py "index") choice || lacks (py "text") choice
  || lacks (py "finish_reason") choice.

(** An upstream reply object without one of its required fields. *)
Definition reply_incomplete (lm_response : value) : bool :=
  lacks (py "id") lm_response || lacks (py "created") lm_response
  || lacks (py "choices") lm_response || lacks (py "usage") lm_response
  || match lm_response with
     | VDict d =>
         match lookup (py "choices") d with
         | Some (VList choices) => existsb choice_incomplete choices
         | _ => false
         end
     | _ => false
     end.

(** A field of a response body. *)
Definition field (k : str) (body : value) : option value :=
  match body with
  | VDict d => lookup k d
  | _ => None
  end.

(** An exception of the interpreter, not an [HTTPException] of a handler. *)
Definition internal (e : exn) : Prop :=
  match e with
  | HTTPException _ _ => False
  | _ => True
  end.

(** [s] is obtained from [t] by deleting characters. *)
Inductive Subseq : str -> str -> Prop :=
| Subseq_nil : Subseq [] []
| Subseq_keep c s t : Subseq s t -> Subseq (c :: s) (c :: t)
| Subseq_drop c s t : Subseq s t -> Subseq s (c :: t).

(** A matcher whose result is what is left of its input behind a prefix. *)
Definition suffixing (m : matcher) : Prop :=
  forall s r, m s = Some r -> exists p, s = p ++ r.

(** A message with a string role and a string content. *)
Definition text_message (role content : str) : value :=
  VDict [(py "role", VStr role); (py "content", VStr content)].

(** A choice the chat leg can translate: an object with [index], a string
    [text] and [finish_reason]. *)
Definition choice_ok (choice : value) : bool :=
  match choice with
  | VDict d =>
      match lookup (py "index") d, lookup (py "text") d,
            lookup (py "finish_reason") d with
      | Some _, Some (VStr _), Some _ => true
      | _, _, _ => false
      end
  | _ => false
  end.

(** What [for choice in lm_response["choices"]] can run over with every
    choice translated: a list of such choices, or an empty object or
    string (nothing to iterate). *)
Definition choices_ok (all_choices : value) : bool :=
  match all_choices with
  | VList choices => forallb choice_ok choices
  | VDict [] => true
  | VStr [] => true
  | _ => false
  end.

Definition reply_translatable (lm_response : value) : bool :=
  match lm_response with
  | VDict d =>
      match lookup (py "id") d, lookup (py "created") d,
            lookup (py "choices") d, lookup (py "usage") d with
      | Some _, Some _, Some all_choices, Some _ => choices_ok all_choices
      | _, _, _, _ => false
      end
  | _ => false
  end.

(** The replies the simple-completion leg accepts: an object whose
    [choices] is absent or a list that starts with an object. *)
Definition generate_reply_ok (lm_response : value) : bool :=
  match lm_response with
  | VDict d =>
      match lookup (py "choices") d with
      | None => true
      | Some (VList (VDict _ :: _)) => true
      | Some _ => false
      end
  | _ => false
  end.

(** The [message] object of a translated choice. *)
Definition message_content (choice : value) : option value :=
  match field (py "message") choice with
  | Some message => field (py "content") message
  | None => None
  end.

(** How a translated choice relates to the upstream choice. *)
Definition translated (choice out : value) : Prop :=
  exists text,
    field (py "text") choice = Some (VStr text)
    /\ message_content out = Some (VStr (clean_lm_response text))
    /\ field (py "message") out
       = Some (VDict [(py "role", VStr (py "assistant"));
                      (py "content", VStr (clean_lm_response text))])
    /\ field (py "index") out = field (py "index") choice
    /\ field (py "finish_reason") out = field (py "finish_reason") choice.


(** What the compiler lays out for the messages it accepts. *)
Module Rendered.
Section Rendered.
Context {B : Builtins}.

(** The content of a message as text: a string as it is, a list as the
    newline-join of the texts of its fragments (the others are skipped),
    nothing when the key is absent, and any other object as [format]
    gives it. *)
Definition content (msg : value) : str :=
  match msg with
  | VDict d =>
      match lookup (py "content") d with
      | Some (VStr s) => s
      | Some (VList fragments) => join [NL] (PromptSpec.texts fragments)
      | Some other => format_object other
      | None => []
      end
  | _ => []
  end.

Definition line (msg : value) : str :=
  upper (PromptSpec.role_of msg) ++ py ": " ++ content msg.

Definition prompt (messages : list value) : str :=
  strip (join [NL] (map line messages)).

End Rendered.
End Rendered.

(** * Properties *)

(** ** The model on the inputs of the specification *)

Example clean_example :
  clean_lm_response (py "<|im_start|>Assistant### Hello") = py "Hello".
Proof. reflexivity. Qed.

Example clean_label_run_example :
  clean_lm_response (py "ASSISTANT:ASSISTANT: x") = py "x".
Proof. reflexivity. Qed.

Example clean_case_example :
  clean_lm_response (py "a<|IM_START|>assistant###  b") = py "ab".
Proof. reflexivity. Qed.

Example clean_line_example :
  clean_lm_response (py "x" ++ NL :: py "ASSISTANT: hi")
  = py "x" ++ NL :: py "ASSISTANT: hi".
Proof. reflexivity. Qed.

Example str_of_int_example : str_of_int 503 = py "503".
Proof. reflexivity. Qed.

Example strip_example : strip (py "  a b  " ++ [NL]) = py "a b".
Proof. reflexivity. Qed.

Example generate_lenient_example :
  outcome_of (generate_ollama sample_generate_request)
    (Responded {| status_code := 200; text := []; json := Some (VDict []) |})
  = Some (Ok (VDict [(py "model", VStr (py "qwen2.5"));
                     (py "created_at", VStr []);
                     (py "response", VStr []);
                     (py "done", VBool true)])).
Proof. reflexivity. Qed.

Example chat_example :
  outcome_of (@chat_completions sample_builtins sample_chat_request)
    (Responded
       {| status_code := 200; text := [];
          json := Some (VDict [(py "id", VStr (py "cmpl-1"));
                               (py "created", VInt 7);
                               (py "choices",
                                VList [VDict [(py "index", VInt 0);
                                              (py "text", VStr (py "<|im_start|>Assistant### Hello"));
                                              (py "finish_reason", VStr (py "stop"))]]);
                               (py "usage", VDict [])]) |})
  = Some (Ok (VDict [(py "id", VStr (py "cmpl-1"));
                     (py "object", VStr (py "chat.completion"));
                     (py "created", VInt 7);
                     (py "model", VStr (py "qwen2.5-coder-32b-instruct-mlx"));
                     (py "choices",
                      VList [VDict [(py "index", VInt 0);
                                    (py "message",
                                     VDict [(py "role", VStr (py "assistant"));
                                            (py "content", VStr (py "Hello"))]);
                                    (py "finish_reason", VStr (py "stop"))]]);
                     (py "usage", VDict [])])).
Proof. reflexivity. Qed.

(** ** Trimming *)

Section Strip.

Lemma lstrip_head s c t : lstrip s = c :: t -> isspace c = false.
Proof.
  induction s as [|a s IH]; simpl; [discriminate|].
  destruct (isspace a) eqn:E; [exact IH|].
  intros H; injection H as -> _; exact E.
Qed.

Lemma lstrip_fixed c t : isspace c = false -> lstrip (c :: t) = c :: t.
Proof. intros H; simpl; now rewrite H. Qed.

Lemma lstrip_idem s : lstrip (lstrip s) = lstrip s.
Proof.
  destruct (lstrip s) as [|c t] eqn:E; [reflexivity|].
  apply lstrip_fixed, (lstrip_head _ _ _ E).
Qed.

Lemma lstrip_app_nonspace u c v :
  isspace c = false -> lstrip (u ++ c :: v) = lstrip u ++ c :: v.
Proof.
  intros H; induction u as [|a u IH]; simpl.
  - now rewrite H.
  - destruct (isspace a); [exact IH|reflexivity].
Qed.

Lemma lstrip_app_space u c :
  isspace c = true ->
  lstrip (u ++ [c]) = match lstrip u with [] => [] | _ => lstrip u ++ [c] end.
Proof.
  intros H; induction u as [|a u IH]; simpl.
  - now rewrite H.
  - destruct (isspace a); [exact IH|reflexivity].
Qed.

Lemma lstrip_length s : (length (lstrip s) <= length s)%nat.
Proof.
  induction s as [|a s IH]; simpl; [lia|].
  destruct (isspace a); simpl; lia.
Qed.

Lemma rstrip_nil : rstrip [] = [].
Proof. reflexivity. Qed.

Lemma rstrip_cons c t : isspace c = false -> rstrip (c :: t) = c :: rstrip t.
Proof.
  intros H; unfold rstrip; simpl.
  rewrite (lstrip_app_nonspace (rev t) c [] H), rev_app_distr; reflexivity.
Qed.

Lemma rstrip_snoc_space u c : isspace c = true -> rstrip (u ++ [c]) = rstrip u.
Proof.
  intros H; unfold rstrip. rewrite rev_app_distr; simpl. now rewrite H.
Qed.

Lemma rstrip_idem s : rstrip (rstrip s) = rstrip s.
Proof. unfold rstrip. now rewrite rev_involutive, lstrip_idem. Qed.

Lemma strip_idem s : strip (strip s) = strip s.
Proof.
  unfold strip.
  destruct (lstrip s) as [|c t] eqn:E; [reflexivity|].
  pose proof (lstrip_head _ _ _ E) as Hc.
  rewrite (rstrip_cons _ _ Hc), (lstrip_fixed _ _ Hc), (rstrip_cons _ _ Hc), rstrip_idem.
  reflexivity.
Qed.

Lemma strip_snoc_space s c : isspace c = true -> strip (s ++ [c]) = strip s.
Proof.
  intros H; unfold strip. rewrite (lstrip_app_space _ _ H).
  destruct (lstrip s) as [|a t]; [reflexivity|].
  now rewrite rstrip_snoc_space.
Qed.

Lemma lstrip_same_length s : length (lstrip s) = length s -> lstrip s = s.
Proof.
  destruct s as [|a s]; [reflexivity|]. simpl.
  destruct (isspace a); [|reflexivity].
  intros H. pose proof (lstrip_length s). lia.
Qed.

Lemma rstrip_length s : (length (rstrip s) <= length s)%nat.
Proof.
  unfold rstrip. rewrite length_rev, <- (length_rev s). apply lstrip_length.
Qed.

Lemma rstrip_same_length s : length (rstrip s) = length s -> rstrip s = s.
Proof.
  unfold rstrip. rewrite length_rev, <- (length_rev s). intros H.
  now rewrite (lstrip_same_length _ H), rev_involutive.
Qed.

Lemma strip_length s : (length (strip s) <= length s)%nat.
Proof.
  unfold strip. pose proof (rstrip_length (lstrip s)). pose proof (lstrip_length s).
  lia.
Qed.

Lemma strip_same_length s : length (strip s) = length s -> strip s = s.
Proof.
  unfold strip. intros H.
  pose proof (rstrip_length (lstrip s)). pose proof (lstrip_length s).
  assert (Hl : lstrip s = s) by (apply lstrip_same_length; lia).
  rewrite Hl in *. now apply rstrip_same_length.
Qed.

End Strip.

(** ** The matchers *)

Section Matchers.

Lemma literal_caseless p m r : caseless p m -> literal p (m ++ r) = Some r.
Proof.
  induction 1 as [|pc c p m Hc _ IH]; simpl; [reflexivity|].
  now rewrite Hc.
Qed.

Lemma literal_split p s r :
  literal p s = Some r -> exists m, s = m ++ r /\ caseless p m.
Proof.
  revert s; induction p as [|pc p IH]; simpl; intros s H.
  - injection H as ->. exists []; split; [reflexivity|constructor].
  - destruct s as [|c s]; [discriminate|].
    destruct (ci_match pc c) eqn:E; [|discriminate].
    destruct (IH _ H) as (m & -> & Hm).
    exists (c :: m); split; [reflexivity|now constructor].
Qed.

Lemma caseless_length p m : caseless p m -> length m = length p.
Proof. induction 1; simpl; congruence. Qed.

Lemma literal_consuming p : p <> [] -> consuming (literal p).
Proof.
  intros Hp s r H. destruct (literal_split _ _ _ H) as (m & -> & Hm).
  apply caseless_length in Hm. rewrite length_app.
  destruct p; [contradiction|simpl in Hm; lia].
Qed.

Lemma seq_spaces_consuming m : consuming m -> consuming (seq m spaces).
Proof.
  intros Hm s r. unfold seq, spaces.
  destruct (m s) as [r'|] eqn:E; [|discriminate].
  intros H; injection H as <-.
  pose proof (Hm _ _ E). pose proof (lstrip_length r'). lia.
Qed.

Lemma seq_spaces_none m s : seq m spaces s = None <-> m s = None.
Proof. unfold seq, spaces. destruct (m s); split; congruence. Qed.

Lemma occurs_seq_spaces m s : occurs (seq m spaces) s = occurs m s.
Proof.
  induction s as [|c s IH]; simpl.
  - unfold seq, spaces. now destruct (m []).
  - unfold seq at 1, spaces. destruct (m (c :: s)); [reflexivity|exact IH].
Qed.

(** Enough fuel: the scan does not depend on it. *)
Lemma sub_all_fuel m : consuming m ->
  forall f1 f2 s, (length s <= f1)%nat -> (length s <= f2)%nat ->
  sub_all f1 m s = sub_all f2 m s.
Proof.
  intros Hm. induction f1 as [|f1 IH]; intros f2 s H1 H2.
  - destruct s; [|simpl in H1; lia].
    destruct f2; simpl; [reflexivity|].
    destruct (m []) eqn:E; [|reflexivity].
    apply Hm in E; simpl in E; lia.
  - destruct f2 as [|f2].
    + destruct s; [|simpl in H2; lia]. simpl.
      destruct (m []) eqn:E; [|reflexivity].
      apply Hm in E; simpl in E; lia.
    + simpl. destruct (m s) as [r|] eqn:E.
      * pose proof (Hm _ _ E). apply IH; lia.
      * destruct s as [|c s]; [reflexivity|].
        simpl in H1, H2. f_equal. apply IH; lia.
Qed.

Lemma sub_all_absent m s : occurs m s = false -> forall f, sub_all f m s = s.
Proof.
  induction s as [|c s IH]; simpl; intros H f.
  - destruct f; simpl; [reflexivity|]. now destruct (m []).
  - destruct (m (c :: s)) eqn:E; [discriminate|].
    destruct f; simpl; [reflexivity|]. rewrite E. f_equal. now apply IH.
Qed.

(** A stretch of text in which the pattern cannot start is copied. *)
Lemma sub_all_copy m a rest :
  consuming m ->
  (forall c t, In c a -> m (c :: t) = None) ->
  sub_all (length (a ++ rest)) m (a ++ rest) = a ++ sub_all (length rest) m rest.
Proof.
  intros Hm; induction a as [|c a IH]; intros Ha; [reflexivity|].
  simpl. rewrite (Ha c (a ++ rest) (or_introl eq_refl)).
  f_equal. apply IH. intros c' t Hin. apply Ha. now right.
Qed.

Lemma many_fuel m : consuming m ->
  forall f1 f2 s, (length s <= f1)%nat -> (length s <= f2)%nat ->
  many f1 m s = many f2 m s.
Proof.
  intros Hm. induction f1 as [|f1 IH]; intros f2 s H1 H2.
  - destruct s; [|simpl in H1; lia].
    destruct f2; simpl; [reflexivity|].
    destruct (m []) eqn:E; [|reflexivity].
    apply Hm in E; simpl in E; lia.
  - destruct f2 as [|f2].
    + destruct s; [|simpl in H2; lia]. simpl.
      destruct (m []) eqn:E; [|reflexivity].
      apply Hm in E; simpl in E; lia.
    + simpl. destruct (m s) as [r|] eqn:E; [|reflexivity].
      pose proof (Hm _ _ E). apply IH; lia.
Qed.

Lemma sub_all_length m : consuming m ->
  forall f s, (length (sub_all f m s) <= length s)%nat.
Proof.
  intros Hm. induction f as [|f IH]; intros s; simpl; [lia|].
  destruct (m s) as [r|] eqn:E.
  - pose proof (Hm _ _ E). pose proof (IH r). lia.
  - destruct s as [|c s]; simpl; [lia|]. pose proof (IH s). lia.
Qed.

(** Where the pattern occurs the substitution makes the text shorter. *)
Lemma sub_all_shrinks m : consuming m ->
  forall f s, (length s <= f)%nat -> occurs m s = true ->
  (length (sub_all f m s) < length s)%nat.
Proof.
  intros Hm. induction f as [|f IH]; intros s Hf Ho.
  - destruct s; [|simpl in Hf; lia]. simpl in Ho.
    destruct (m []) eqn:E; [|discriminate].
    apply Hm in E. simpl in E. lia.
  - simpl. destruct s as [|c s]; simpl in Ho.
    + destruct (m []) eqn:E; [|discriminate].
      apply Hm in E. simpl in E. lia.
    + destruct (m (c :: s)) as [r|] eqn:E.
      * pose proof (Hm _ _ E). pose proof (sub_all_length m Hm f r). lia.
      * simpl in Hf. simpl. pose proof (IH s ltac:(lia) Ho). lia.
Qed.

Lemma many_length m : consuming m ->
  forall f s, (length (many f m s) <= length s)%nat.
Proof.
  intros Hm. induction f as [|f IH]; intros s; simpl; [lia|].
  destruct (m s) as [r|] eqn:E; [|lia].
  pose proof (Hm _ _ E). pose proof (IH r). lia.
Qed.

Lemma plus_consuming m : consuming m -> consuming (plus m).
Proof.
  intros Hm s r. unfold plus. destruct (m s) as [r'|] eqn:E; [|discriminate].
  intros H; injection H as <-.
  pose proof (Hm _ _ E). pose proof (many_length m Hm (length r') r'). lia.
Qed.

End Matchers.

(** ** Response cleaner *)

Section Cleaner.

Lemma marker_re_consuming : consuming marker_re.
Proof. apply seq_spaces_consuming, literal_consuming. discriminate. Qed.

Lemma alt_consuming ms : Forall consuming ms -> consuming (alt ms).
Proof.
  induction 1 as [|m ms Hm _ IH]; intros s r; simpl; [discriminate|].
  destruct (m s) as [r'|] eqn:E.
  - intros H; injection H as <-. exact (Hm _ _ E).
  - apply IH.
Qed.

Lemma label_alt_consuming : consuming label_alt.
Proof.
  apply alt_consuming. unfold LABELS; cbn [map].
  repeat (apply Forall_cons; [apply literal_consuming; discriminate|]).
  apply Forall_nil.
Qed.

Lemma ci_match_exact p c :
  (p < 65)%N -> ci_match p c = true -> c = p.
Proof.
  unfold ci_match. intros Hp H.
  assert (Hl : ascii_lower p = p).
  { unfold ascii_lower. destruct (N.leb_spec 65 p); [lia|reflexivity]. }
  rewrite Hl in H.
  destruct (N.eqb_spec p 105); [lia|].
  destruct (N.eqb_spec p 115); [lia|].
  destruct (N.eqb_spec p 107); [lia|].
  simpl in H. rewrite !orb_false_r in H. apply N.eqb_eq in H.
  unfold ascii_lower in H.
  destruct (N.leb_spec 65 c); simpl in H; [|exact H].
  destruct (N.leb_spec c 90); simpl in H; [lia|exact H].
Qed.

Lemma marker_needs_lt (c : char) (t : str) : c <> 60%N -> marker_re (c :: t) = None.
Proof.
  intros Hc. apply seq_spaces_none.
  change (literal MARKER (c :: t))
    with (if ci_match 60%N c then literal (tl MARKER) t else None).
  destruct (ci_match 60%N c) eqn:E; [|reflexivity].
  apply ci_match_exact in E; [contradiction|lia].
Qed.

(** Text without the patterns is trimmed and nothing else. *)
Lemma clean_plain x :
  contains_marker (strip x) = false ->
  starts_with_label (strip x) = false ->
  clean_lm_response x = strip x.
Proof.
  unfold clean_lm_response, contains_marker, starts_with_label.
  intros Hm Hl. unfold remove_markers.
  rewrite (sub_all_absent marker_re (strip x));
    [|now rewrite (occurs_seq_spaces (literal MARKER))].
  unfold remove_leading_labels, sub_start, labels_re, seq, plus.
  destruct (label_alt (strip x)); [discriminate|reflexivity].
Qed.

(** The first substitution is global: a marker after text without [<] is
    dropped with the white space behind it, and the scan goes on. *)
Lemma remove_markers_anywhere (a m b : str) :
  Forall (fun c : char => c <> 60%N) a -> caseless MARKER m ->
  remove_markers (a ++ m ++ b) = a ++ remove_markers (lstrip b).
Proof.
  intros Ha Hm. unfold remove_markers.
  rewrite (sub_all_copy marker_re a (m ++ b) marker_re_consuming).
  2:{ intros c t Hin. apply marker_needs_lt.
      rewrite Forall_forall in Ha. now apply Ha. }
  f_equal.
  pose proof (caseless_length _ _ Hm) as Hlen.
  destruct m as [|c m]; [discriminate|].
  change (length ((c :: m) ++ b)) with (S (length (m ++ b))).
  cbn [sub_all]. unfold marker_re at 1, seq, spaces.
  rewrite (literal_caseless MARKER (c :: m) b Hm).
  apply (sub_all_fuel marker_re marker_re_consuming); [|lia].
  pose proof (lstrip_length b). rewrite length_app. lia.
Qed.

Ltac invert_caseless :=
  repeat match goal with
         | H : Forall2 _ (_ :: _) _ |- _ => inversion H; subst; clear H
         | H : Forall2 _ [] _ |- _ => inversion H; subst; clear H
         end.

Lemma label_alt_label l s : assistant_label l -> label_alt (l ++ s) = Some s.
Proof.
  intros [H|H].
  - unfold label_alt, LABELS. cbn [map alt].
    now rewrite (literal_caseless _ _ s H).
  - unfold label_alt, LABELS. cbn [map alt].
    rewrite (literal_caseless (py "ASSISTANT:") l s H).
    replace (literal (py "ASSISTANT###") (l ++ s)) with (@None str); [reflexivity|].
    unfold caseless in H. cbv [py list_ascii_of_string map N_of_ascii N_of_digits] in H.
    simpl in H. invert_caseless.
    match goal with
    | Hc : ci_match 58%N ?c = true |- _ =>
        apply ci_match_exact in Hc; [subst c|lia]
    end.
    cbn.
    repeat match goal with
           | Hc : ci_match _ _ = true |- _ => rewrite Hc; clear Hc
           end.
    reflexivity.
Qed.

Lemma label_nonempty l : assistant_label l -> (0 < length l)%nat.
Proof.
  intros [H|H]; apply caseless_length in H; rewrite H; cbn; lia.
Qed.

Lemma many_label_run (ls : list str) (rest : str) :
  Forall assistant_label ls -> label_alt rest = None ->
  many (length (concat ls ++ rest)) label_alt (concat ls ++ rest) = rest.
Proof.
  intros Hls Hrest. induction Hls as [|l ls Hl _ IH]; simpl.
  - destruct (length rest); simpl; [reflexivity|now rewrite Hrest].
  - pose proof (label_nonempty _ Hl) as Hpos.
    rewrite <- app_assoc.
    destruct l as [|c l]; [simpl in Hpos; lia|].
    change (length ((c :: l) ++ concat ls ++ rest))
      with (S (length (l ++ concat ls ++ rest))).
    cbn [many]. rewrite (label_alt_label (c :: l) (concat ls ++ rest) Hl).
    etransitivity; [|exact IH].
    apply (many_fuel label_alt label_alt_consuming); [|lia].
    rewrite (length_app l); lia.
Qed.

(** The second substitution drops a leading run of labels. *)
Lemma remove_label_run (ls : list str) (rest : str) :
  ls <> [] -> Forall assistant_label ls -> label_alt rest = None ->
  remove_leading_labels (concat ls ++ rest) = lstrip rest.
Proof.
  intros Hne Hls Hrest. destruct ls as [|l ls]; [contradiction|].
  inversion Hls as [|? ? Hl Hls']; subst.
  unfold remove_leading_labels, sub_start, labels_re, seq, plus, spaces.
  simpl concat. rewrite <- app_assoc.
  rewrite (label_alt_label l (concat ls ++ rest) Hl).
  now rewrite (many_label_run ls rest Hls' Hrest).
Qed.

Lemma labels_re_consuming : consuming labels_re.
Proof. apply seq_spaces_consuming, plus_consuming, label_alt_consuming. Qed.

(** The texts the cleaner leaves alone: trimmed, without a marker and
    without a leading alternative of the prefix pattern. *)
Lemma clean_fixed_point (y : str) :
  clean_lm_response y = y <->
  strip y = y /\ contains_marker y = false /\ starts_with_label y = false.
Proof.
  split.
  - unfold clean_lm_response. intros H.
    pose proof (strip_length y) as L1.
    pose proof (sub_all_length marker_re marker_re_consuming
                  (length (strip y)) (strip y)) as L2.
    fold (remove_markers (strip y)) in L2.
    assert (L3 : (length (remove_leading_labels (remove_markers (strip y)))
                  <= length (remove_markers (strip y)))%nat).
    { unfold remove_leading_labels, sub_start.
      destruct (labels_re (remove_markers (strip y))) as [r|] eqn:E; [|lia].
      pose proof (labels_re_consuming _ _ E). lia. }
    assert (L4 : length (remove_leading_labels (remove_markers (strip y)))
                 = length y) by now rewrite H.
    assert (Hs : strip y = y) by (apply strip_same_length; lia).
    rewrite Hs in *.
    assert (Hm : contains_marker y = false).
    { unfold contains_marker. destruct (occurs (literal MARKER) y) eqn:E;
        [|reflexivity].
      rewrite <- (occurs_seq_spaces (literal MARKER)) in E.
      pose proof (sub_all_shrinks marker_re marker_re_consuming
                    (length y) y (le_n _) E) as L5.
      fold (remove_markers y) in L5. lia. }
    assert (Hr : remove_markers y = y).
    { unfold remove_markers. apply sub_all_absent.
      now rewrite (occurs_seq_spaces (literal MARKER)). }
    rewrite Hr in *. repeat split; trivial.
    unfold starts_with_label. destruct (label_alt y) as [r|] eqn:E; [|reflexivity].
    unfold remove_leading_labels, sub_start in L4.
    destruct (labels_re y) as [r'|] eqn:E'.
    + pose proof (labels_re_consuming _ _ E'). lia.
    + unfold labels_re, seq, plus in E'. rewrite E in E'. discriminate.
  - intros (Hs & Hm & Hl). rewrite <- Hs in Hm, Hl.
    now rewrite (clean_plain y Hm Hl).
Qed.

End Cleaner.

(** C1 (as amended): cleaning the output of the cleaner again changes
    nothing exactly when that output is trimmed, contains no start-of-turn
    marker and does not begin with an alternative of the prefix pattern.
    This is the case for every input whose trimmed form is free of the
    patterns: there the cleaner only trims and
    [clean(clean(x)) = clean(x)]. *)
Theorem clean_idempotent_on_plain_text :
  (forall x : str,
      contains_marker (strip x) = false ->
      starts_with_label (strip x) = false ->
      clean_lm_response x = strip x /\
      clean_lm_response (clean_lm_response x) = clean_lm_response x)
  /\ (forall x : str,
         clean_lm_response (clean_lm_response x) = clean_lm_response x <->
         strip (clean_lm_response x) = clean_lm_response x
         /\ contains_marker (clean_lm_response x) = false
         /\ starts_with_label (clean_lm_response x) = false).
Proof.
  split.
  - intros x Hm Hl. rewrite (clean_plain x Hm Hl). split; [reflexivity|].
    transitivity (strip (strip x)); [|apply strip_idem].
    apply clean_plain; now rewrite strip_idem.
  - intros x. apply clean_fixed_point.
Qed.

Lemma clean_idempotent_on_plain_text_witness :
  clean_lm_response (py "  Hello world ") = strip (py "  Hello world ") /\
  clean_lm_response (clean_lm_response (py "  Hello world "))
  = clean_lm_response (py "  Hello world ").
Proof.
  apply (proj1 clean_idempotent_on_plain_text (py "  Hello world "));
    reflexivity.
Defined.

(** C1, counterexample: a marker at the end of the text is removed after
    the trimming, which uncovers the blank before it; a second pass trims
    that blank, so the cleaner is not idempotent. *)
Lemma clean_not_idempotent :
  clean_lm_response (py "a <|im_start|>Assistant###") = py "a " /\
  clean_lm_response (clean_lm_response (py "a <|im_start|>Assistant###"))
  <> clean_lm_response (py "a <|im_start|>Assistant###").
Proof. split; [reflexivity|discriminate]. Qed.


(** ** Prompt compiler *)

Section PromptCompilerProperties.

Context {B : Builtins}.

Lemma fragment_texts_ok items :
  forallb fragment_ok items = true ->
  map_result as_str (fragment_texts items) = Ok (PromptSpec.texts items).
Proof.
  induction items as [|item items IH]; [reflexivity|].
  cbn [forallb]. intros H. apply andb_true_iff in H as [Hi Hrest].
  specialize (IH Hrest). unfold fragment_texts in *. cbn [flat_map PromptSpec.texts].
  destruct item as [| | | | |?|d]; try exact IH.
  unfold fragment_ok in Hi.
  destruct (lookup (py "text") d) as [[| | | |t| |]|]; try discriminate; try exact IH.
  cbn [app map_result as_str bind]. now rewrite IH.
Qed.

Lemma join_values_ok items :
  forallb fragment_ok items = true ->
  join_values [NL] (fragment_texts items) = Ok (join [NL] (PromptSpec.texts items)).
Proof.
  intros H. unfold join_values. now rewrite (fragment_texts_ok items H).
Qed.

(** On a message of the data model the loop body appends the line of the
    specification and a newline. *)
Lemma message_line_chat msg :
  chat_message msg = true ->
  message_line msg = Ok (PromptSpec.line msg ++ [NL]).
Proof.
  destruct msg as [| | | | | |d]; try discriminate.
  unfold chat_message, role_ok. intros H. apply andb_true_iff in H as [Hr Hc].
  unfold message_line, dict_get, PromptSpec.line, PromptSpec.role_of,
    PromptSpec.content_of.
  destruct (lookup (py "role") d) as [[| | | |r| |]|]; try discriminate;
  destruct (lookup (py "content") d) as [[| | | |c|items|]|]; try discriminate;
    cbn [bind method_upper format_field];
    rewrite ?(join_values_ok items Hc); cbn [bind format_field];
    now rewrite <- !app_assoc.
Qed.

Lemma fragment_texts_raise items :
  forallb fragment_ok items = false ->
  map_result as_str (fragment_texts items) = Raise TypeError.
Proof.
  induction items as [|item items IH]; [discriminate|].
  cbn [forallb]. intros H. unfold fragment_texts in *. cbn [flat_map].
  destruct item as [| | | | |?|d]; try (apply IH; exact H).
  unfold fragment_ok in H.
  destruct (lookup (py "text") d) as [[| | | |t| |]|];
    try reflexivity; try (apply IH; exact H).
  cbn [app map_result as_str bind]. now rewrite (IH H).
Qed.

(** The loop body succeeds exactly on the compilable messages. *)
Lemma message_line_compilable msg :
  compilable msg = true <-> exists l, message_line msg = Ok l.
Proof.
  destruct msg as [| | | | | |d];
    try (split; [discriminate|intros [l H]; discriminate]).
  unfold compilable, role_ok, message_line, dict_get. cbn [bind].
  destruct (lookup (py "role") d) as [[| | | |r|rl|rd]|];
    destruct (lookup (py "content") d) as [[| | | |c|items|cd]|];
    cbn [bind method_upper andb];
    try (split; [intros _; eexists; reflexivity|reflexivity]);
    try (split; [discriminate|intros [l H]; discriminate]).
  all: unfold join_values;
    destruct (forallb fragment_ok items) eqn:E;
    [ rewrite (fragment_texts_ok items E); cbn [bind method_upper];
      try (split; [intros _; eexists; reflexivity|reflexivity]);
      try (split; [discriminate|intros [l H]; discriminate])
    | rewrite (fragment_texts_raise items E); cbn [bind];
      split; [discriminate|intros [l H]; discriminate] ].
Qed.

Lemma prompt_loop_lines (f : value -> str) messages :
  (forall msg, In msg messages -> message_line msg = Ok (f msg)) ->
  forall prompt,
    prompt_loop prompt messages = Ok (prompt ++ concat (map f messages)).
Proof.
  induction messages as [|msg rest IH]; intros H prompt; cbn [prompt_loop map concat].
  - now rewrite app_nil_r.
  - rewrite (H msg (or_introl eq_refl)). cbn [bind].
    rewrite IH; [now rewrite app_assoc|].
    intros m Hm. apply H. now right.
Qed.

Lemma concat_lines (ls : list str) :
  concat (map (fun l => l ++ [NL]) ls)
  = match ls with [] => [] | _ => join [NL] ls ++ [NL] end.
Proof.
  induction ls as [|l ls IH]; [reflexivity|].
  cbn [map concat]. rewrite IH.
  destruct ls as [|l' ls]; [now rewrite app_nil_r|].
  cbn [join]. now rewrite <- !app_assoc.
Qed.

Lemma prompt_loop_total messages :
  forallb compilable messages = true ->
  forall prompt, exists s, prompt_loop prompt messages = Ok s.
Proof.
  induction messages as [|msg rest IH]; cbn [forallb prompt_loop]; intros H prompt.
  - now exists prompt.
  - apply andb_true_iff in H as [Hm Hrest].
    apply message_line_compilable in Hm as [l ->]. cbn [bind]. now apply IH.
Qed.

Lemma prompt_loop_rejects messages :
  forallb compilable messages = false ->
  forall prompt, exists e, prompt_loop prompt messages = Raise e.
Proof.
  induction messages as [|msg rest IH]; cbn [forallb prompt_loop];
    [discriminate|]; intros H prompt.
  destruct (message_line msg) as [l|e] eqn:E; cbn [bind]; [|now exists e].
  assert (Hm : compilable msg = true)
    by (apply message_line_compilable; now exists l).
  rewrite Hm in H. now apply IH.
Qed.

End PromptCompilerProperties.

(** C8: on messages of the data model the compiler returns the lines
    ["<ROLE-UPPERCASE>: <content>"] (role "user" when absent; a string
    content verbatim, a sequence content as the newline-join of the texts
    of its fragments that carry one, in order), joined by newlines and
    trimmed; the two examples of the specification evaluate as stated. *)
Theorem convert_messages_to_prompt_spec {B : Builtins} :
  (forall messages,
      forallb chat_message messages = true ->
      convert_messages_to_prompt messages = Ok (PromptSpec.compiled messages))
  /\ convert_messages_to_prompt
       [VDict [(py "role", VStr (py "user")); (py "content", VStr (py "hi"))];
        VDict [(py "role", VStr (py "assistant")); (py "content", VStr (py "yo"))]]
     = Ok (py "USER: hi" ++ NL :: py "ASSISTANT: yo")
  /\ convert_messages_to_prompt
       [VDict [(py "role", VStr (py "user"));
               (py "content", VList [VDict [(py "text", VStr (py "a"))];
                                     VDict [(py "other", VStr (py "x"))];
                                     VDict [(py "text", VStr (py "b"))]])]]
     = Ok (py "USER: a" ++ NL :: py "b").
Proof.
  split; [|split; reflexivity].
  intros messages H. unfold convert_messages_to_prompt, PromptSpec.compiled.
  rewrite (prompt_loop_lines (fun msg => PromptSpec.line msg ++ [NL])).
  2:{ intros msg Hin. apply message_line_chat.
      rewrite forallb_forall in H. now apply H. }
  cbn [bind app]. f_equal.
  rewrite <- (map_map PromptSpec.line (fun l => l ++ [NL])), concat_lines.
  destruct (map PromptSpec.line messages); [reflexivity|].
  now apply strip_snoc_space.
Qed.

Lemma convert_messages_to_prompt_spec_witness :
  @convert_messages_to_prompt sample_builtins
    [VDict [(py "content", VStr (py " what? "))];
     VDict [(py "role", VStr (py "system")); (py "content", VList [VInt 3])]]
  = Ok (py "USER:  what? " ++ NL :: py "SYSTEM:").
Proof.
  apply (proj1 (@convert_messages_to_prompt_spec sample_builtins)
           [VDict [(py "content", VStr (py " what? "))];
            VDict [(py "role", VStr (py "system")); (py "content", VList [VInt 3])]]).
  reflexivity.
Defined.

(** X13: outside these messages the compiler raises: a message that is
    not compilable anywhere in the sequence makes the whole call fail. *)
Lemma convert_messages_to_prompt_rejects {B : Builtins} (messages : list value) :
  forallb compilable messages = false ->
  exists e, convert_messages_to_prompt messages = Raise e.
Proof.
  intros H. unfold convert_messages_to_prompt.
  destruct (prompt_loop_rejects messages H []) as [e ->].
  cbn [bind]. now eexists.
Qed.

(** C9, counterexample: a message that is not an object, a role that is
    not a string and a fragment whose text is not a string each make the
    compiler raise. *)
Lemma convert_messages_to_prompt_raises :
  @convert_messages_to_prompt sample_builtins [VStr (py "hi")]
  = Raise AttributeError
  /\ @convert_messages_to_prompt sample_builtins
       [VDict [(py "role", VInt 1); (py "content", VStr (py "hi"))]]
     = Raise AttributeError
  /\ @convert_messages_to_prompt sample_builtins
       [VDict [(py "role", VStr (py "user"));
               (py "content", VList [VDict [(py "text", VInt 1)]])]]
     = Raise TypeError.
Proof. repeat split. Qed.

(** ** Exceptions that leave the translation *)

Section Internal.

Lemma bind_raise {A C} (r : result A) (k : A -> result C) e :
  bind r k = Raise e -> r = Raise e \/ exists a, r = Ok a /\ k a = Raise e.
Proof. destruct r as [a|e']; cbn; [right; now exists a|left; congruence]. Qed.

Lemma internal_500 e : internal e -> downstream_status (Raise e) = 500%Z.
Proof. now destruct e. Qed.

Lemma getitem_internal v k e : getitem v k = Raise e -> internal e.
Proof.
  destruct v; cbn; try (intros [= <-]; exact I).
  destruct (lookup k entries); [discriminate|intros [= <-]; exact I].
Qed.

Lemma iter_internal v e : iter v = Raise e -> internal e.
Proof. destruct v; cbn; try discriminate; intros [= <-]; exact I. Qed.

Lemma clean_value_internal v e : clean_value v = Raise e -> internal e.
Proof. destruct v; cbn; try discriminate; intros [= <-]; exact I. Qed.

Lemma map_result_internal {A C} (f : A -> result C) l e :
  (forall a e', f a = Raise e' -> internal e') ->
  map_result f l = Raise e -> internal e.
Proof.
  intros Hf. induction l as [|a l IH]; cbn [map_result]; [discriminate|].
  intros H. apply bind_raise in H as [H|(b & _ & H)]; [exact (Hf _ _ H)|].
  apply bind_raise in H as [H|(bs & _ & H)]; [exact (IH H)|discriminate].
Qed.

Ltac raised H :=
  apply bind_raise in H as [H|(? & _ & H)].

Lemma openai_choice_internal choice e : openai_choice choice = Raise e -> internal e.
Proof.
  unfold openai_choice. intros H.
  raised H; [exact (getitem_internal _ _ _ H)|].
  raised H; [exact (getitem_internal _ _ _ H)|].
  raised H; [exact (clean_value_internal _ _ H)|].
  raised H; [exact (getitem_internal _ _ _ H)|discriminate].
Qed.

Lemma openai_response_internal model_name lm_response e :
  openai_response model_name lm_response = Raise e -> internal e.
Proof.
  unfold openai_response. intros H.
  raised H; [exact (getitem_internal _ _ _ H)|].
  raised H; [exact (getitem_internal _ _ _ H)|].
  raised H; [exact (getitem_internal _ _ _ H)|].
  raised H; [exact (iter_internal _ _ H)|].
  raised H; [exact (map_result_internal _ _ _ openai_choice_internal H)|].
  raised H; [exact (getitem_internal _ _ _ H)|discriminate].
Qed.

Lemma as_str_internal v e : as_str v = Raise e -> internal e.
Proof. destruct v; cbn; try discriminate; intros [= <-]; exact I. Qed.

Lemma dict_get_internal v k d e : dict_get v k d = Raise e -> internal e.
Proof. destruct v; cbn; try discriminate; intros [= <-]; exact I. Qed.

Context {B : Builtins}.

Lemma message_line_internal msg e : message_line msg = Raise e -> internal e.
Proof.
  unfold message_line. intros H.
  raised H; [exact (dict_get_internal _ _ _ _ H)|].
  raised H; [exact (dict_get_internal _ _ _ _ H)|].
  raised H.
  - destruct x0; try discriminate. unfold join_values in H.
    raised H; [|discriminate].
    raised H; [exact (map_result_internal _ _ _ as_str_internal H)|discriminate].
  - raised H; [|discriminate].
    destruct x; cbn in H; try discriminate; injection H as <-; exact I.
Qed.

Lemma convert_internal messages e :
  convert_messages_to_prompt messages = Raise e -> internal e.
Proof.
  unfold convert_messages_to_prompt. intros H.
  raised H; [|discriminate]. revert H. generalize (@nil char).
  induction messages as [|msg rest IH]; cbn [prompt_loop]; [discriminate|].
  intros prompt H. raised H; [exact (message_line_internal _ _ H)|exact (IH _ H)].
Qed.

End Internal.

(** ** Chat route: the response leg *)

Section ChatReply.

Lemma choice_incomplete_raises choice :
  choice_incomplete choice = true -> exists e, openai_choice choice = Raise e.
Proof.
  unfold choice_incomplete, lacks, openai_choice, getitem.
  destruct choice as [| | | | | |d]; try discriminate.
  destruct (lookup (py "index") d); cbn [bind orb]; [|now eexists].
  destruct (lookup (py "text") d) as [t|]; cbn [bind orb]; [|now eexists].
  destruct (clean_value t); cbn [bind]; [|now eexists].
  destruct (lookup (py "finish_reason") d); [discriminate|now eexists].
Qed.

Lemma choices_incomplete_raise choices :
  existsb choice_incomplete choices = true ->
  exists e, map_result openai_choice choices = Raise e.
Proof.
  induction choices as [|c cs IH]; cbn [existsb map_result]; [discriminate|].
  intros H. destruct (openai_choice c) as [b|e] eqn:E; cbn [bind]; [|now eexists].
  destruct (choice_incomplete c) eqn:Ec.
  - destruct (choice_incomplete_raises c Ec) as [e He]. congruence.
  - destruct (IH H) as [e ->]. now eexists.
Qed.

(** No defaults: a reply without a required field makes the leg raise. *)
Lemma openai_response_needs_fields model_name lm_response :
  reply_incomplete lm_response = true ->
  exists e, openai_response model_name lm_response = Raise e.
Proof.
  unfold reply_incomplete, lacks, openai_response, getitem.
  destruct lm_response as [| | | | | |d]; try discriminate.
  destruct (lookup (py "id") d); cbn [bind orb]; [|now eexists].
  destruct (lookup (py "created") d); cbn [bind orb]; [|now eexists].
  destruct (lookup (py "choices") d) as [all_choices|]; cbn [bind orb]; [|now eexists].
  destruct (iter all_choices) as [each|e] eqn:Ei; cbn [bind]; [|now eexists].
  destruct (map_result openai_choice each) as [choices|e] eqn:Em; cbn [bind];
    [|now eexists].
  destruct (lookup (py "usage") d); cbn [bind orb]; [|now eexists].
  intros H. destruct all_choices; try discriminate.
  cbn in Ei. injection Ei as <-.
  destruct (choices_incomplete_raise items H) as [e He]. congruence.
Qed.

End ChatReply.

(** C7: on the chat route, a non-streaming exchange whose upstream reply
    lacks [id], [created], [choices], [usage], or the [index], [text] or
    [finish_reason] of a choice ends in an exception that the framework
    answers with a 500; no response body is returned. *)
Theorem chat_incomplete_reply_is_500 {B : Builtins}
    (request : ChatRequest.t) (response : Response) (lm_response : value) :
  ChatRequest.stream request = false ->
  is_success (status_code response) = true ->
  json response = Some lm_response ->
  reply_incomplete lm_response = true ->
  exists e,
    outcome_of (chat_completions request) (Responded response) = Some (Raise e)
    /\ downstream_status (Raise e) = 500%Z.
Proof.
  intros Hs Hok Hj Hmiss. unfold chat_completions.
  destruct (convert_messages_to_prompt (ChatRequest.messages request))
    as [prompt|e] eqn:E.
  - rewrite Hs. cbn [outcome_of post_and_check]. rewrite Hok. cbn [bind].
    unfold response_json. rewrite Hj. cbn [bind].
    destruct (openai_response_needs_fields
                (resolve_model (ChatRequest.model request)) lm_response Hmiss)
      as [e He].
    exists e. rewrite He. split; [reflexivity|].
    apply internal_500, (openai_response_internal _ _ _ He).
  - exists e. split; [reflexivity|].
    apply internal_500, (convert_internal _ _ E).
Qed.

Lemma chat_incomplete_reply_is_500_witness :
  exists e,
    outcome_of
      (@chat_completions sample_builtins sample_chat_request)
      (Responded
         {| status_code := 200;
            text := [];
            json := Some (VDict [(py "id", VStr (py "c1"));
                                 (py "created", VInt 1);
                                 (py "choices", VList [])]) |})
    = Some (Raise e)
    /\ downstream_status (Raise e) = 500%Z.
Proof.
  apply (@chat_incomplete_reply_is_500 sample_builtins) with
    (lm_response := VDict [(py "id", VStr (py "c1"));
                           (py "created", VInt 1);
                           (py "choices", VList [])]);
    reflexivity.
Defined.

(** C6: once a non-streaming request has reached the backend, a reply with
    a status outside 2xx becomes an [HTTPException] with that status whose
    detail embeds the reply body, a timeout becomes a 504, and any other
    transport failure becomes a 500 that carries its description; this
    holds on both routes. *)
Theorem upstream_failures_become_http_errors {B : Builtins} :
  (forall (request : ChatRequest.t) (payload : Payload.t),
      ChatRequest.stream request = false ->
      sent_upstream (chat_completions request) = Some payload ->
      (forall response,
          is_success (status_code response) = false ->
          outcome_of (chat_completions request) (Responded response)
          = Some (Raise (HTTPException (status_code response)
                           (py "LM Studio error: " ++ text response))))
      /\ outcome_of (chat_completions request) (PostFailed TimeoutException)
         = Some (Raise (HTTPException 504 (py "LM Studio request timed out")))
      /\ (forall message,
             outcome_of (chat_completions request) (PostFailed (RequestError message))
             = Some (Raise (HTTPException 500 (py "Request error: " ++ message)))))
  /\ (forall request : OllamaRequest.t,
         OllamaRequest.stream request = false ->
         (forall response,
             is_success (status_code response) = false ->
             outcome_of (generate_ollama request) (Responded response)
             = Some (Raise (HTTPException (status_code response)
                              (py "LM Studio error: " ++ text response))))
         /\ outcome_of (generate_ollama request) (PostFailed TimeoutException)
            = Some (Raise (HTTPException 504 (py "LM Studio request timed out")))
         /\ (forall message,
                outcome_of (generate_ollama request) (PostFailed (RequestError message))
                = Some (Raise (HTTPException 500 (py "Request error: " ++ message))))).
Proof.
  split.
  - intros request payload Hs. unfold chat_completions.
    destruct (convert_messages_to_prompt (ChatRequest.messages request));
      [|discriminate].
    rewrite Hs. intros _. cbn [outcome_of post_and_check bind].
    repeat split. intros response Hbad. now rewrite Hbad.
  - intros request Hs. unfold generate_ollama. rewrite Hs.
    cbn [outcome_of post_and_check bind].
    repeat split. intros response Hbad. now rewrite Hbad.
Qed.

Lemma upstream_failures_become_http_errors_witness :
  outcome_of
    (@chat_completions sample_builtins sample_chat_request)
    (Responded {| status_code := 503; text := py "overloaded"; json := None |})
  = Some (Raise (HTTPException 503 (py "LM Studio error: overloaded"))).
Proof.
  exact (proj1 (proj1 (@upstream_failures_become_http_errors sample_builtins)
                  sample_chat_request _ eq_refl eq_refl)
           {| status_code := 503; text := py "overloaded"; json := None |} eq_refl).
Defined.

(** ** Model names and response bodies *)

Section Bodies.

Lemma bind_ok {A C} (r : result A) (k : A -> result C) c :
  bind r k = Ok c -> exists a, r = Ok a /\ k a = Ok c.
Proof. destruct r as [a|e]; cbn; [now exists a|discriminate]. Qed.

Ltac returned H :=
  apply bind_ok in H as (? & ? & H).

Lemma openai_response_model model_name lm_response body :
  openai_response model_name lm_response = Ok body ->
  field (py "model") body = Some (VStr model_name).
Proof.
  unfold openai_response. intros H. do 6 returned H.
  injection H as <-. reflexivity.
Qed.

Lemma ollama_response_model model_name lm_response body :
  ollama_response model_name lm_response = Ok body ->
  field (py "model") body = Some (VStr model_name).
Proof.
  unfold ollama_response. intros H. do 4 returned H.
  injection H as <-. reflexivity.
Qed.

(** The lenient leg: an absent [created] or [choices] and a first choice
    without [text] are replaced by their defaults. *)
Lemma ollama_response_first_choice model_name d first :
  (lookup (py "choices") d = None /\ first = [])
  \/ (exists rest, lookup (py "choices") d = Some (VList (VDict first :: rest))) ->
  ollama_response model_name (VDict d)
  = Ok (VDict [(py "model", VStr model_name);
               (py "created_at",
                match lookup (py "created") d with Some c => c | None => VStr [] end);
               (py "response",
                match lookup (py "text") first with Some t => t | None => VStr [] end);
               (py "done", VBool true)]).
Proof.
  unfold ollama_response, dict_get. cbn [bind].
  intros [[-> ->]|[rest ->]]; reflexivity.
Qed.

End Bodies.

(** C10: on the simple-completion route the [response] of a non-streaming
    exchange is the [text] of the first upstream choice as it arrived; the
    cleaner is not applied, so a text that carries the assistant framing
    comes back with it. *)
Theorem generate_returns_text_verbatim
    (request : OllamaRequest.t) (response : Response)
    (d first : list (str * value)) (rest : list value) (t : value) :
  OllamaRequest.stream request = false ->
  is_success (status_code response) = true ->
  json response = Some (VDict d) ->
  lookup (py "choices") d = Some (VList (VDict first :: rest)) ->
  lookup (py "text") first = Some t ->
  outcome_of (generate_ollama request) (Responded response)
  = Some (Ok (VDict [(py "model", VStr (OllamaRequest.model request));
                     (py "created_at",
                      match lookup (py "created") d with
                      | Some c => c
                      | None => VStr []
                      end);
                     (py "response", t);
                     (py "done", VBool true)])).
Proof.
  intros Hs Hok Hj Hc Ht. unfold generate_ollama. rewrite Hs.
  cbn [outcome_of post_and_check]. rewrite Hok. cbn [bind].
  unfold response_json. rewrite Hj. cbn [bind].
  rewrite (ollama_response_first_choice _ d first); [|right; now exists rest].
  now rewrite Ht.
Qed.

Lemma generate_returns_text_verbatim_witness :
  outcome_of (generate_ollama sample_generate_request)
    (Responded
       {| status_code := 200;
          text := [];
          json := Some (VDict [(py "created", VInt 7);
                               (py "choices",
                                VList [VDict [(py "text",
                                  VStr (py "<|im_start|>Assistant### Hello"))]])]) |})
  = Some (Ok (VDict [(py "model", VStr (py "qwen2.5"));
                     (py "created_at", VInt 7);
                     (py "response", VStr (py "<|im_start|>Assistant### Hello"));
                     (py "done", VBool true)])).
Proof.
  apply (generate_returns_text_verbatim sample_generate_request _
           [(py "created", VInt 7);
            (py "choices",
             VList [VDict [(py "text", VStr (py "<|im_start|>Assistant### Hello"))]])]
           [(py "text", VStr (py "<|im_start|>Assistant### Hello"))] []);
    reflexivity.
Defined.

(** C2, the failing input: a reply whose [choices] is present and empty.
    The default [[{}]] only stands in for an absent key, so indexing the
    empty list raises [IndexError] and the exchange ends in a 500 where the
    claim promises an empty [response]. *)
Theorem generate_empty_choices_raises :
  (forall model_name,
      ollama_response model_name (VDict [(py "choices", VList [])])
      = Raise IndexError)
  /\ outcome_of (generate_ollama sample_generate_request)
       (Responded {| status_code := 200;
                     text := [];
                     json := Some (VDict [(py "choices", VList [])]) |})
     = Some (Raise IndexError)
  /\ downstream_status (Raise IndexError) = 500%Z.
Proof. repeat split. Qed.

(** ** Streaming *)

(** X12: what holds of the streamed call: the chunks of the backend are yielded
    as they arrive and in their order; a failure of the transport (before
    the response, or while the body is read) ends the sequence with the
    single chunk ["ERROR: ..."], and nothing is raised. *)
Lemma stream_relays_then_reports :
  (forall request_data status body_text chunks,
      is_success status = true ->
      stream_chat_response request_data
        (StreamOpened status body_text chunks None)
      = {| yielded := chunks; raised := None |})
  /\ (forall request_data status body_text chunks f,
         is_success status = true ->
         exists description,
           stream_chat_response request_data
             (StreamOpened status body_text chunks (Some f))
           = {| yielded := chunks ++ [py "ERROR: " ++ description];
                raised := None |})
  /\ (forall request_data f,
         exists description,
           stream_chat_response request_data (StreamNotOpened f)
           = {| yielded := [py "ERROR: " ++ description]; raised := None |})
  /\ (forall request_data body_text c1 c2 f,
         stream_chat_response request_data
           (StreamOpened 200 body_text [c1; c2] (Some f))
         = {| yielded := [c1; c2; stream_error_chunk f]; raised := None |}).
Proof.
  assert (Herr : forall f, exists description,
             stream_error_chunk f = py "ERROR: " ++ description).
  { intros [|message].
    - exists (py "LM Studio request timed out"). reflexivity.
    - exists (py "Request failed: " ++ message). reflexivity. }
  split; [|split; [|split]].
  - intros request_data status body_text chunks Hok.
    unfold stream_chat_response. now rewrite Hok, app_nil_r.
  - intros request_data status body_text chunks f Hok.
    destruct (Herr f) as [description Hd]. exists description.
    unfold stream_chat_response. now rewrite Hok, Hd.
  - intros request_data f. destruct (Herr f) as [description Hd].
    exists description. unfold stream_chat_response. now rewrite Hd.
  - reflexivity.
Qed.

(** C5, the failing input: a streamed call that the backend answers with a
    status outside 2xx.  The handler of the status error formats the text
    of a response whose body was never read, which raises; the generator
    ends with [ResponseNotRead] and yields no ["ERROR: ..."] chunk. *)
Theorem stream_status_error_raises
    (request_data : Payload.t) (status : Z) (body_text : str)
    (chunks : list str) (ending : option transport_failure) :
  is_success status = false ->
  stream_chat_response request_data (StreamOpened status body_text chunks ending)
  = {| yielded := []; raised := Some ResponseNotRead |}.
Proof.
  intros Hbad. unfold stream_chat_response. now rewrite Hbad.
Qed.

Lemma stream_status_error_raises_witness :
  stream_chat_response
    {| Payload.model := py "m"; Payload.prompt := py "p";
       Payload.temperature := S754_zero false; Payload.max_tokens := 512;
       Payload.stream := true |}
    (StreamOpened 503 (py "busy") [] None)
  = {| yielded := []; raised := Some ResponseNotRead |}.
Proof.
  apply stream_status_error_raises. reflexivity.
Defined.

(** * Further properties of the code *)

(** ** The cleaner only deletes *)

Section CleanerDeletes.

Lemma Subseq_refl s : Subseq s s.
Proof. induction s; constructor; assumption. Qed.

Lemma Subseq_trans s t u : Subseq s t -> Subseq t u -> Subseq s u.
Proof.
  intros Hst Htu. revert s Hst.
  induction Htu as [|c t u _ IH|c t u _ IH]; intros s Hst.
  - exact Hst.
  - inversion Hst; subst; constructor; now apply IH.
  - constructor. now apply IH.
Qed.

Lemma Subseq_suffix p s : Subseq s (p ++ s).
Proof. induction p; simpl; [apply Subseq_refl|now constructor]. Qed.

Lemma Subseq_prefix s q : Subseq s (s ++ q).
Proof.
  induction s as [|c s IH]; simpl; [|now constructor].
  induction q; now constructor.
Qed.

Lemma lstrip_suffix s : exists p, s = p ++ lstrip s.
Proof.
  induction s as [|c s [p IH]]; simpl; [now exists []|].
  destruct (isspace c); [|now exists []].
  exists (c :: p). simpl. now f_equal.
Qed.

Lemma rstrip_prefix s : exists q, s = rstrip s ++ q.
Proof.
  unfold rstrip. destruct (lstrip_suffix (rev s)) as [p Hp].
  exists (rev p). rewrite <- rev_app_distr, <- Hp. now rewrite rev_involutive.
Qed.

Lemma strip_Subseq s : Subseq (strip s) s.
Proof.
  unfold strip. destruct (lstrip_suffix s) as [p Hp].
  destruct (rstrip_prefix (lstrip s)) as [q Hq].
  apply Subseq_trans with (lstrip s).
  - rewrite Hq at 2. apply Subseq_prefix.
  - rewrite Hp at 2. apply Subseq_suffix.
Qed.

Lemma literal_suffixing p : suffixing (literal p).
Proof.
  intros s r H. destruct (literal_split _ _ _ H) as (m & -> & _). now exists m.
Qed.

Lemma seq_suffixing m1 m2 : suffixing m1 -> suffixing m2 -> suffixing (seq m1 m2).
Proof.
  intros H1 H2 s r. unfold seq. destruct (m1 s) as [r1|] eqn:E; [|discriminate].
  intros H. destruct (H1 _ _ E) as [p1 ->]. destruct (H2 _ _ H) as [p2 ->].
  exists (p1 ++ p2). now rewrite app_assoc.
Qed.

Lemma spaces_suffixing : suffixing spaces.
Proof. intros s r [= <-]. apply lstrip_suffix. Qed.

Lemma alt_suffixing ms : Forall suffixing ms -> suffixing (alt ms).
Proof.
  induction 1 as [|m ms Hm _ IH]; intros s r; simpl; [discriminate|].
  destruct (m s) as [r'|] eqn:E; [|apply IH].
  intros [= <-]. exact (Hm _ _ E).
Qed.

Lemma many_suffix m : suffixing m -> forall f s, exists p, s = p ++ many f m s.
Proof.
  intros Hm. induction f as [|f IH]; intros s; simpl; [now exists []|].
  destruct (m s) as [r|] eqn:E; [|now exists []].
  destruct (Hm _ _ E) as [p1 ->]. destruct (IH r) as [p2 Hp2].
  exists (p1 ++ p2). rewrite <- app_assoc. now f_equal.
Qed.

Lemma plus_suffixing m : suffixing m -> suffixing (plus m).
Proof.
  intros Hm s r. unfold plus. destruct (m s) as [r'|] eqn:E; [|discriminate].
  intros [= <-]. destruct (Hm _ _ E) as [p1 ->].
  destruct (many_suffix m Hm (length r') r') as [p2 Hp2].
  exists (p1 ++ p2). rewrite <- app_assoc. now f_equal.
Qed.

Lemma sub_all_Subseq m : suffixing m -> forall f s, Subseq (sub_all f m s) s.
Proof.
  intros Hm. induction f as [|f IH]; intros s; simpl; [apply Subseq_refl|].
  destruct (m s) as [r|] eqn:E.
  - destruct (Hm _ _ E) as [p ->].
    apply Subseq_trans with r; [apply IH|apply Subseq_suffix].
  - destruct s as [|c s]; constructor. apply IH.
Qed.

Lemma marker_re_suffixing : suffixing marker_re.
Proof. apply seq_suffixing; [apply literal_suffixing|apply spaces_suffixing]. Qed.

Lemma labels_re_suffixing : suffixing labels_re.
Proof.
  apply seq_suffixing; [|apply spaces_suffixing].
  apply plus_suffixing, alt_suffixing. unfold LABELS; cbn [map].
  repeat (apply Forall_cons; [apply literal_suffixing|]). apply Forall_nil.
Qed.

Lemma Subseq_length s t : Subseq s t -> (length s <= length t)%nat.
Proof. induction 1; simpl; lia. Qed.

End CleanerDeletes.

(** X1: the cleaner only deletes.  Its output is the input with some
    characters removed: nothing is inserted, replaced or reordered, and
    the output is never longer than the input. *)
Theorem clean_lm_response_only_deletes (x : str) :
  Subseq (clean_lm_response x) x
  /\ (length (clean_lm_response x) <= length x)%nat.
Proof.
  assert (H : Subseq (clean_lm_response x) x).
  { unfold clean_lm_response.
    apply Subseq_trans with (strip x); [|apply strip_Subseq].
    apply Subseq_trans with (remove_markers (strip x)).
    - unfold remove_leading_labels, sub_start.
      destruct (labels_re (remove_markers (strip x))) as [r|] eqn:E;
        [|apply Subseq_refl].
      destruct (labels_re_suffixing _ _ E) as [p ->]. apply Subseq_suffix.
    - apply sub_all_Subseq, marker_re_suffixing. }
  split; [exact H|exact (Subseq_length _ _ H)].
Qed.

(** ** No leading white space is left *)

Section CleanerLeading.

Lemma lstrip_fixed_head c s : lstrip (c :: s) = c :: s -> isspace c = false.
Proof.
  simpl. destruct (isspace c); [|reflexivity].
  intros H. pose proof (lstrip_length s) as L. rewrite H in L. simpl in L. lia.
Qed.

Lemma strip_no_leading_space s : lstrip (strip s) = strip s.
Proof.
  unfold strip. destruct (lstrip s) as [|c t] eqn:E; [reflexivity|].
  pose proof (lstrip_head _ _ _ E) as Hc.
  rewrite (rstrip_cons _ _ Hc). now apply lstrip_fixed.
Qed.

Lemma sub_all_marker_no_leading_space f s :
  lstrip s = s -> lstrip (sub_all f marker_re s) = sub_all f marker_re s.
Proof.
  revert s. induction f as [|f IH]; intros s Hs; simpl; [exact Hs|].
  destruct (marker_re s) as [r|] eqn:E.
  - apply IH. unfold marker_re, seq, spaces in E.
    destruct (literal MARKER s); [|discriminate].
    injection E as <-. apply lstrip_idem.
  - destruct s as [|c s]; [reflexivity|].
    apply lstrip_fixed, (lstrip_fixed_head _ _ Hs).
Qed.

End CleanerLeading.

(** X2: whatever the input, the cleaned text does not begin with white
    space (white space at its end can remain). *)
Theorem clean_lm_response_no_leading_space (x : str) :
  lstrip (clean_lm_response x) = clean_lm_response x.
Proof.
  unfold clean_lm_response, remove_leading_labels, sub_start.
  destruct (labels_re (remove_markers (strip x))) as [r|] eqn:E.
  - unfold labels_re, seq, spaces in E.
    destruct (plus label_alt (remove_markers (strip x))); [|discriminate].
    injection E as <-. apply lstrip_idem.
  - apply sub_all_marker_no_leading_space, strip_no_leading_space.
Qed.

(** ** A leading marker *)

Section LeadingMarker.

Lemma lstrip_app a b :
  lstrip (a ++ b) = match lstrip a with [] => lstrip b | l => l ++ b end.
Proof.
  induction a as [|c a IH]; simpl; [reflexivity|].
  destruct (isspace c); [exact IH|reflexivity].
Qed.

Lemma lstrip_all_space w : forallb isspace w = true -> lstrip w = [].
Proof.
  induction w as [|c w IH]; simpl; [reflexivity|].
  destruct (isspace c); [exact IH|discriminate].
Qed.

Lemma rstrip_cons_cases c s :
  rstrip (c :: s)
  = match rstrip s with
    | [] => if isspace c then [] else [c]
    | r => c :: r
    end.
Proof.
  unfold rstrip. simpl rev. rewrite lstrip_app.
  destruct (lstrip (rev s)) as [|a l]; simpl.
  - now destruct (isspace c).
  - rewrite rev_app_distr. simpl.
    destruct (rev l ++ [a]) eqn:E; [|reflexivity].
    now destruct (rev l).
Qed.

Lemma lstrip_rstrip s : lstrip (rstrip s) = strip s.
Proof.
  unfold strip. induction s as [|c s IH]; [reflexivity|].
  simpl lstrip at 2. destruct (isspace c) eqn:Ec.
  - rewrite rstrip_cons_cases, Ec, <- IH.
    destruct (rstrip s); [reflexivity|]. simpl. now rewrite Ec.
  - rewrite (rstrip_cons _ _ Ec). now apply lstrip_fixed.
Qed.

Lemma rstrip_app_keep u c x :
  isspace c = false -> rstrip (u ++ c :: x) = u ++ c :: rstrip x.
Proof.
  intros Hc. unfold rstrip. rewrite rev_app_distr. simpl rev.
  rewrite <- app_assoc. simpl.
  rewrite (lstrip_app_nonspace _ _ _ Hc), rev_app_distr. simpl.
  now rewrite rev_involutive, <- app_assoc.
Qed.

Lemma caseless_marker_shape (m : str) :
  caseless MARKER m ->
  exists u : str, m = (60%N : char) :: u ++ [(35%N : char)].
Proof.
  intros H.
  change MARKER with ([60%N] ++ removelast (tl MARKER) ++ [35%N]) in H.
  apply Forall2_app_inv_l in H as (m1 & m2 & H1 & H2 & ->).
  apply Forall2_app_inv_l in H2 as (u & m3 & _ & H3 & ->).
  inversion H1 as [|? c1 ? l1 Hc1 Hn1]; subst. inversion Hn1; subst.
  inversion H3 as [|? c3 ? l3 Hc3 Hn3]; subst. inversion Hn3; subst.
  apply ci_match_exact in Hc1; [|lia]. apply ci_match_exact in Hc3; [|lia].
  subst. now exists u.
Qed.

End LeadingMarker.

(** X3: what the cleaner is for.  A text that opens with the start-of-turn
    marker, in any case, then white space, then a trimmed text [b] that
    holds no marker and does not begin with an alternative of the prefix
    pattern, is cleaned to [b] itself. *)
Theorem clean_strips_leading_marker (m w b : str) :
  caseless MARKER m ->
  forallb isspace w = true ->
  strip b = b ->
  contains_marker b = false ->
  starts_with_label b = false ->
  clean_lm_response (m ++ w ++ b) = b.
Proof.
  intros Hm Hw Hb Hmark Hlab.
  destruct (caseless_marker_shape m Hm) as [u Hu].
  assert (Hstrip : strip (m ++ w ++ b) = m ++ rstrip (w ++ b)).
  { unfold strip. rewrite Hu.
    replace (((60%N : char) :: u ++ [(35%N : char)]) ++ w ++ b)
      with ((60%N : char) :: u ++ (35%N : char) :: w ++ b)
      by (simpl; now rewrite <- app_assoc).
    rewrite lstrip_fixed by reflexivity.
    rewrite (rstrip_cons _ _ (eq_refl : isspace 60%N = false)).
    rewrite (rstrip_app_keep u 35%N (w ++ b) eq_refl).
    simpl. now rewrite <- app_assoc. }
  assert (Hrest : lstrip (rstrip (w ++ b)) = b).
  { rewrite lstrip_rstrip. unfold strip.
    rewrite lstrip_app, (lstrip_all_space w Hw). exact Hb. }
  unfold clean_lm_response. rewrite Hstrip.
  pose proof (remove_markers_anywhere [] m (rstrip (w ++ b)) (Forall_nil _) Hm)
    as Hr.
  cbn [app] in Hr. rewrite Hr, Hrest.
  unfold remove_markers.
  rewrite (sub_all_absent marker_re b);
    [|now rewrite (occurs_seq_spaces (literal MARKER))].
  unfold remove_leading_labels, sub_start, labels_re, seq, plus.
  unfold starts_with_label in Hlab.
  destruct (label_alt b); [discriminate|reflexivity].
Qed.

Lemma clean_strips_leading_marker_witness :
  clean_lm_response
    (py "<|IM_START|>assistant###" ++ (10%N :: py "  ") ++ py "Hello, world")
  = py "Hello, world".
Proof.
  apply clean_strips_leading_marker; try reflexivity.
  repeat constructor.
Defined.

(** ** The prompt: turns and white space *)

Section PromptText.

Context {B : Builtins}.

Lemma message_line_text role content :
  message_line (text_message role content)
  = Ok (upper role ++ py ": " ++ content ++ [NL]).
Proof. reflexivity. Qed.

Lemma prompt_loop_app a b :
  forall prompt,
    prompt_loop prompt (a ++ b)
    = (p <- prompt_loop prompt a ;; prompt_loop p b).
Proof.
  induction a as [|msg a IH]; intros prompt; cbn [app prompt_loop bind];
    [reflexivity|].
  destruct (message_line msg) as [l|e]; cbn [bind]; [apply IH|reflexivity].
Qed.

Lemma strip_app_spaces x w : forallb isspace w = true -> strip (x ++ w) = strip x.
Proof.
  induction w as [|c w IH] using rev_ind; intros H; [now rewrite app_nil_r|].
  rewrite forallb_app in H. apply andb_true_iff in H as [Hw Hc].
  cbn in Hc. rewrite andb_true_r in Hc.
  rewrite app_assoc, (strip_snoc_space _ _ Hc). now apply IH.
Qed.

End PromptText.

(** X4: the compiler does not escape the text it lays out.  A content that
    holds a newline followed by ["ROLE: text"] compiles to the very prompt
    of two separate turns, so the prompt does not tell them apart. *)
Theorem convert_messages_to_prompt_merges_turns {B : Builtins}
    (role1 content1 role2 content2 : str) :
  convert_messages_to_prompt
    [text_message role1 (content1 ++ [NL] ++ upper role2 ++ py ": " ++ content2)]
  = convert_messages_to_prompt
      [text_message role1 content1; text_message role2 content2].
Proof.
  unfold convert_messages_to_prompt. cbn [prompt_loop].
  rewrite !message_line_text. cbn [bind]. rewrite ?message_line_text.
  cbn [bind app]. do 2 f_equal.
  rewrite <- !app_assoc. cbn [app]. now rewrite <- !app_assoc.
Qed.

(** X5: the prompt is trimmed as a whole.  A prompt that is returned has
    no white space at either end, and white space at the end of the last
    message's content never reaches it. *)
Theorem convert_messages_to_prompt_trims {B : Builtins} :
  (forall messages prompt,
      convert_messages_to_prompt messages = Ok prompt -> strip prompt = prompt)
  /\ (forall messages role content w,
         forallb isspace w = true ->
         convert_messages_to_prompt
           (messages ++ [text_message role (content ++ w)])
         = convert_messages_to_prompt
             (messages ++ [text_message role content])).
Proof.
  split.
  - intros messages prompt. unfold convert_messages_to_prompt.
    destruct (prompt_loop [] messages) as [p|e]; cbn [bind]; [|discriminate].
    intros [= <-]. apply strip_idem.
  - intros messages role content w Hw. unfold convert_messages_to_prompt.
    rewrite !prompt_loop_app.
    destruct (prompt_loop [] messages) as [p|e]; cbn [bind]; [|reflexivity].
    cbn [prompt_loop]. rewrite !message_line_text. cbn [bind]. f_equal.
    assert (Hs : forallb isspace (w ++ [NL]) = true)
      by (rewrite forallb_app, Hw; reflexivity).
    replace (p ++ upper role ++ py ": " ++ (content ++ w) ++ [NL])
      with ((p ++ upper role ++ py ": " ++ content) ++ (w ++ [NL]))
      by (now rewrite <- !app_assoc).
    replace (p ++ upper role ++ py ": " ++ content ++ [NL])
      with ((p ++ upper role ++ py ": " ++ content) ++ [NL])
      by (now rewrite <- !app_assoc).
    rewrite (strip_app_spaces _ _ Hs).
    symmetry. apply strip_snoc_space. reflexivity.
Qed.

Lemma convert_messages_to_prompt_trims_witness :
  @convert_messages_to_prompt sample_builtins
    ([text_message (py "system") (py "be brief")]
       ++ [text_message (py "user") (py "hi" ++ [NL; NL])])
  = @convert_messages_to_prompt sample_builtins
      ([text_message (py "system") (py "be brief")]
         ++ [text_message (py "user") (py "hi")]).
Proof.
  apply (proj2 (@convert_messages_to_prompt_trims sample_builtins)).
  reflexivity.
Defined.

(** X6: a chat request reaches the backend exactly when its messages
    compile.  Then the payload carries the resolved model, the compiled
    prompt and the caller's temperature, token limit and stream flag;
    otherwise the handler raises before any upstream call, streaming or
    not, and the framework answers 500. *)
Theorem chat_completions_request_leg {B : Builtins} (request : ChatRequest.t) :
  (forallb compilable (ChatRequest.messages request) = true ->
   exists prompt,
     convert_messages_to_prompt (ChatRequest.messages request) = Ok prompt
     /\ sent_upstream (chat_completions request)
        = Some {| Payload.model := resolve_model (ChatRequest.model request);
                  Payload.prompt := prompt;
                  Payload.temperature := ChatRequest.temperature request;
                  Payload.max_tokens := ChatRequest.max_tokens request;
                  Payload.stream := ChatRequest.stream request |})
  /\ (forallb compilable (ChatRequest.messages request) = false ->
      exists e,
        chat_completions request = Failed e
        /\ downstream_status (Raise e) = 500%Z).
Proof.
  split; intros H.
  - destruct (prompt_loop_total _ H []) as [p Hp].
    exists (strip p). unfold chat_completions, convert_messages_to_prompt.
    rewrite Hp. cbn [bind]. split; [reflexivity|].
    now destruct (ChatRequest.stream request).
  - destruct (prompt_loop_rejects _ H []) as [e He].
    exists e. unfold chat_completions.
    assert (Hc : convert_messages_to_prompt (ChatRequest.messages request)
                 = Raise e)
      by (unfold convert_messages_to_prompt; now rewrite He).
    rewrite Hc. split; [reflexivity|].
    apply internal_500, (convert_internal _ _ Hc).
Qed.

(** ** Chat route: what the response leg accepts and returns *)

Section ChatLeg.

Lemma openai_choice_accepts choice :
  choice_ok choice = true -> exists out, openai_choice choice = Ok out.
Proof.
  unfold choice_ok, openai_choice, getitem.
  destruct choice as [| | | | | |d]; try discriminate.
  destruct (lookup (py "index") d); [|discriminate].
  destruct (lookup (py "text") d) as [[| | | |t| |]|]; try discriminate.
  destruct (lookup (py "finish_reason") d); [|discriminate].
  intros _. cbn. now eexists.
Qed.

Lemma openai_choice_refuses choice :
  choice_ok choice = false -> exists e, openai_choice choice = Raise e.
Proof.
  unfold choice_ok, openai_choice, getitem.
  destruct choice as [| | | | | |d]; try (intros _; now eexists).
  destruct (lookup (py "index") d); cbn [bind]; [|intros _; now eexists].
  destruct (lookup (py "text") d) as [[| | | |t| |]|]; cbn [bind clean_value];
    try (intros _; now eexists).
  destruct (lookup (py "finish_reason") d); [discriminate|intros _; now eexists].
Qed.

Lemma map_openai_choice_accepts choices :
  forallb choice_ok choices = true ->
  exists out, map_result openai_choice choices = Ok out.
Proof.
  induction choices as [|c cs IH]; cbn [forallb map_result]; [now eexists|].
  intros H. apply andb_true_iff in H as [Hc Hcs].
  destruct (openai_choice_accepts c Hc) as [o ->].
  destruct (IH Hcs) as [out ->]. cbn. now eexists.
Qed.

Lemma map_openai_choice_refuses choices :
  forallb choice_ok choices = false ->
  exists e, map_result openai_choice choices = Raise e.
Proof.
  induction choices as [|c cs IH]; cbn [forallb map_result]; [discriminate|].
  intros H. destruct (choice_ok c) eqn:Ec.
  - destruct (openai_choice_accepts c Ec) as [o ->].
    destruct (IH H) as [e ->]. cbn. now eexists.
  - destruct (openai_choice_refuses c Ec) as [e ->]. cbn. now eexists.
Qed.

Lemma iter_choices_accepts all_choices :
  choices_ok all_choices = true ->
  exists each out,
    iter all_choices = Ok each /\ map_result openai_choice each = Ok out.
Proof.
  destruct all_choices as [| | | |s|choices|d]; try discriminate; cbn.
  - destruct s; [|discriminate]. intros _. now exists [], [].
  - intros H. destruct (map_openai_choice_accepts choices H) as [out Hout].
    now exists choices, out.
  - destruct d; [|discriminate]. intros _. now exists [], [].
Qed.

Lemma iter_choices_refuses all_choices :
  choices_ok all_choices = false ->
  (exists e, iter all_choices = Raise e)
  \/ (exists each e,
         iter all_choices = Ok each /\ map_result openai_choice each = Raise e).
Proof.
  destruct all_choices as [| | | |s|choices|d]; cbn;
    try (intros _; left; now eexists).
  - destruct s as [|c s]; [discriminate|]. intros _. right.
    cbn [map map_result]. eexists _, _. split; reflexivity.
  - intros H. right. destruct (map_openai_choice_refuses choices H) as [e He].
    now exists choices, e.
  - destruct d as [|[k v] d]; [discriminate|]. intros _. right.
    cbn [map map_result]. eexists _, _. split; reflexivity.
Qed.

Lemma openai_choice_translated choice out :
  openai_choice choice = Ok out -> translated choice out.
Proof.
  unfold openai_choice, getitem, translated, message_content.
  destruct choice as [| | | | | |d]; try discriminate.
  destruct (lookup (py "index") d) as [i|] eqn:Ei; [|discriminate].
  destruct (lookup (py "text") d) as [[| | | |t| |]|] eqn:Et; try discriminate.
  destruct (lookup (py "finish_reason") d) as [fr|] eqn:Ef; [|discriminate].
  cbn [bind clean_value]. intros [= <-].
  exists t. cbn [field]. rewrite Et, Ei, Ef. repeat split.
Qed.

Lemma map_openai_choice_translated choices out :
  map_result openai_choice choices = Ok out -> Forall2 translated choices out.
Proof.
  revert out. induction choices as [|c cs IH]; cbn [map_result]; intros out H.
  - injection H as <-. constructor.
  - apply bind_ok in H as (o & Ho & H).
    apply bind_ok in H as (os & Hos & H). injection H as <-.
    constructor; [now apply openai_choice_translated|now apply IH].
Qed.

End ChatLeg.

(** X7: the chat response leg returns a body exactly for the replies that
    are objects with [id], [created], [usage] and a [choices] that is a
    list of objects each with [index], a string [text] and
    [finish_reason] (or is an empty object or string, over which the loop
    does not run); on every other reply it raises. *)
Theorem openai_response_accepts (model_name : str) (lm_response : value) :
  (exists body, openai_response model_name lm_response = Ok body)
  <-> reply_translatable lm_response = true.
Proof.
  unfold reply_translatable, openai_response, getitem.
  destruct lm_response as [| | | | | |d];
    try (split; [intros [body H]; discriminate|discriminate]).
  destruct (lookup (py "id") d); cbn [bind];
    [|split; [intros [body H]; discriminate|discriminate]].
  destruct (lookup (py "created") d); cbn [bind];
    [|split; [intros [body H]; discriminate|discriminate]].
  destruct (lookup (py "choices") d) as [all_choices|]; cbn [bind];
    [|split; [intros [body H]; discriminate|discriminate]].
  destruct (choices_ok all_choices) eqn:Eok.
  - destruct (iter_choices_accepts all_choices Eok) as (each & out & -> & Hout).
    cbn [bind]. rewrite Hout. cbn [bind].
    destruct (lookup (py "usage") d); cbn [bind];
      [split; [reflexivity|intros _; now eexists]
      |split; [intros [body H]; discriminate|discriminate]].
  - destruct (iter_choices_refuses all_choices Eok)
      as [[e ->]|(each & e & -> & He)]; cbn [bind]; [|rewrite He; cbn [bind]];
      (split; [intros [body H]; discriminate|]);
      destruct (lookup (py "usage") d); discriminate.
Qed.

(** X8: what the chat response leg returns.  The body carries the
    upstream [id], [created] and [usage] unchanged and the object type
    ["chat.completion"]; for a [choices] list it has one choice per
    upstream choice, in the same order, whose message has the role
    "assistant" and the cleaned text as content and whose [index] and
    [finish_reason] are the upstream ones. *)
Theorem openai_response_translates
    (model_name : str) (lm_response body : value) (choices : list value) :
  openai_response model_name lm_response = Ok body ->
  field (py "choices") lm_response = Some (VList choices) ->
  field (py "id") body = field (py "id") lm_response
  /\ field (py "created") body = field (py "created") lm_response
  /\ field (py "usage") body = field (py "usage") lm_response
  /\ field (py "object") body = Some (VStr (py "chat.completion"))
  /\ exists out,
       field (py "choices") body = Some (VList out)
       /\ Forall2 translated choices out.
Proof.
  unfold openai_response, getitem.
  destruct lm_response as [| | | | | |d]; try discriminate.
  cbn [field].
  destruct (lookup (py "id") d) as [id|]; [|discriminate].
  destruct (lookup (py "created") d) as [created|]; [|discriminate].
  destruct (lookup (py "choices") d) as [all_choices|]; [|discriminate].
  cbn [bind]. intros H [= ->]. cbn [iter bind] in H.
  destruct (map_result openai_choice choices) as [out|e] eqn:Eo; [|discriminate].
  cbn [bind] in H.
  destruct (lookup (py "usage") d) as [usage|]; [|discriminate].
  cbn [bind] in H. injection H as <-.
  repeat split. exists out. split; [reflexivity|].
  now apply map_openai_choice_translated.
Qed.

Lemma openai_response_translates_witness :
  field (py "id")
    (VDict [(py "id", VStr (py "cmpl-1"));
            (py "object", VStr (py "chat.completion"));
            (py "created", VInt 7);
            (py "model", VStr (py "m"));
            (py "choices",
             VList [VDict [(py "index", VInt 0);
                           (py "message",
                            VDict [(py "role", VStr (py "assistant"));
                                   (py "content", VStr (py "Hello"))]);
                           (py "finish_reason", VStr (py "stop"))]]);
            (py "usage", VDict [])])
  = field (py "id")
      (VDict [(py "id", VStr (py "cmpl-1"));
              (py "created", VInt 7);
              (py "choices",
               VList [VDict [(py "index", VInt 0);
                             (py "text", VStr (py "ASSISTANT: Hello"));
                             (py "finish_reason", VStr (py "stop"))]]);
              (py "usage", VDict [])]).
Proof.
  exact (proj1 (openai_response_translates (py "m")
                  (VDict [(py "id", VStr (py "cmpl-1"));
                          (py "created", VInt 7);
                          (py "choices",
                           VList [VDict [(py "index", VInt 0);
                                         (py "text", VStr (py "ASSISTANT: Hello"));
                                         (py "finish_reason", VStr (py "stop"))]]);
                          (py "usage", VDict [])])
                  _ _ eq_refl eq_refl)).
Defined.

(** ** Simple-completion route: what the response leg accepts *)

(** X9: the simple-completion response leg returns a body exactly for the
    replies that are objects whose [choices] is absent or a list that
    starts with an object; then [done] is true, [created_at] is the
    upstream [created] or the empty text when absent, and [response] is
    the empty text when [choices] is absent or the first choice has no
    [text]. *)
Theorem ollama_response_accepts (model_name : str) :
  (forall lm_response,
      (exists body, ollama_response model_name lm_response = Ok body)
      <-> generate_reply_ok lm_response = true)
  /\ (forall d body,
         ollama_response model_name (VDict d) = Ok body ->
         field (py "done") body = Some (VBool true)
         /\ field (py "created_at") body
            = Some (match lookup (py "created") d with
                    | Some created => created
                    | None => VStr []
                    end)
         /\ (lookup (py "choices") d = None ->
             field (py "response") body = Some (VStr []))
         /\ (forall first rest,
                lookup (py "choices") d = Some (VList (VDict first :: rest)) ->
                lookup (py "text") first = None ->
                field (py "response") body = Some (VStr []))).
Proof.
  split.
  - intros lm_response. unfold generate_reply_ok, ollama_response, dict_get.
    destruct lm_response as [| | | | | |d];
      try (split; [intros [body H]; discriminate|discriminate]).
    cbn [bind].
    destruct (lookup (py "choices") d) as [[| | | |s|items|cd]|]; cbn;
      try (split; [intros [body H]; discriminate|discriminate]);
      try (split; [reflexivity|intros _; now eexists]).
    + destruct s; cbn; split; try discriminate; intros [body H]; discriminate.
    + destruct items as [|[| | | | | |first] rest]; cbn;
        try (split; [intros [body H]; discriminate|discriminate]).
      split; [reflexivity|intros _; now eexists].
  - intros d body. unfold ollama_response, dict_get. cbn [bind].
    destruct (lookup (py "choices") d) as [all_choices|] eqn:Ec.
    + destruct (getitem0 all_choices) as [first|e] eqn:E0; cbn [bind];
        [|discriminate].
      destruct first as [| | | | | |fd]; cbn [bind]; try discriminate.
      intros [= <-]. repeat split; try discriminate.
      intros first rest [= ->]. cbn in E0. injection E0 as <-.
      intros ->. reflexivity.
    + cbn. intros [= <-]. repeat split; intros; discriminate.
Qed.

(** ** Errors of the handlers *)

Section HandlerErrors.

Lemma getitem0_internal v e : getitem0 v = Raise e -> internal e.
Proof.
  destruct v as [| | | |s|l|d]; cbn; try (intros [= <-]; exact I).
  - destruct s; [intros [= <-]; exact I|discriminate].
  - destruct l; [intros [= <-]; exact I|discriminate].
Qed.

Ltac raised_in H :=
  apply bind_raise in H as [H|(? & _ & H)].

Lemma ollama_response_internal model_name lm_response e :
  ollama_response model_name lm_response = Raise e -> internal e.
Proof.
  unfold ollama_response. intros H.
  raised_in H; [exact (dict_get_internal _ _ _ _ H)|].
  raised_in H; [exact (dict_get_internal _ _ _ _ H)|].
  raised_in H; [exact (getitem0_internal _ _ H)|].
  raised_in H; [exact (dict_get_internal _ _ _ _ H)|discriminate].
Qed.

Lemma internal_not_success e :
  internal e -> is_success (downstream_status (Raise e)) = false.
Proof. intros H. now rewrite (internal_500 e H). Qed.

Lemma post_and_check_not_success outcome e :
  post_and_check outcome = Raise e ->
  is_success (downstream_status (Raise e)) = false.
Proof.
  destruct outcome as [response|[|message]]; cbn.
  - destruct (is_success (status_code response)) eqn:E; [discriminate|].
    intros [= <-]. exact E.
  - intros [= <-]. reflexivity.
  - intros [= <-]. reflexivity.
Qed.

Lemma response_json_internal response e :
  response_json response = Raise e -> internal e.
Proof.
  unfold response_json. destruct (json response); [discriminate|].
  intros [= <-]. exact I.
Qed.

End HandlerErrors.

(** X10: an exchange that ends in an exception is never answered with a
    2xx status, on either route: the [HTTPException] of a handler carries
    the upstream non-2xx status, 504 or 500, and any other exception is a
    500. *)
Theorem handler_errors_are_not_success {B : Builtins} :
  (forall (request : ChatRequest.t) outcome e,
      outcome_of (chat_completions request) outcome = Some (Raise e) ->
      is_success (downstream_status (Raise e)) = false)
  /\ (forall (request : OllamaRequest.t) outcome e,
         outcome_of (generate_ollama request) outcome = Some (Raise e) ->
         is_success (downstream_status (Raise e)) = false).
Proof.
  split.
  - intros request outcome e. unfold chat_completions.
    destruct (convert_messages_to_prompt (ChatRequest.messages request))
      as [prompt|e0] eqn:Ec.
    + destruct (ChatRequest.stream request); cbn [outcome_of]; [discriminate|].
      intros [= H].
      apply bind_raise in H as [H|(response & _ & H)];
        [exact (post_and_check_not_success _ _ H)|].
      apply bind_raise in H as [H|(lm_response & _ & H)];
        [exact (internal_not_success _ (response_json_internal _ _ H))|].
      exact (internal_not_success _ (openai_response_internal _ _ _ H)).
    + cbn [outcome_of]. intros [= <-].
      exact (internal_not_success _ (convert_internal _ _ Ec)).
  - intros request outcome e. unfold generate_ollama.
    destruct (OllamaRequest.stream request); cbn [outcome_of]; [discriminate|].
    intros [= H].
    apply bind_raise in H as [H|(response & _ & H)];
      [exact (post_and_check_not_success _ _ H)|].
    apply bind_raise in H as [H|(lm_response & _ & H)];
      [exact (internal_not_success _ (response_json_internal _ _ H))|].
    exact (internal_not_success _ (ollama_response_internal _ _ _ H)).
Qed.

Lemma handler_errors_are_not_success_witness :
  is_success
    (downstream_status
       (Raise (HTTPException 404 (py "LM Studio error: no such model"))))
  = false.
Proof.
  exact (proj2 (@handler_errors_are_not_success sample_builtins)
           sample_generate_request
           (Responded {| status_code := 404; text := py "no such model";
                         json := None |})
           _ eq_refl).
Defined.

(** ** The alias table *)

Lemma eqb_eq (a b : str) : PyStr.eqb a b = true <-> a = b.
Proof.
  revert b. induction a as [|x a IH]; intros [|y b]; simpl;
    try (split; [discriminate|discriminate]); [split; reflexivity|].
  rewrite andb_true_iff, N.eqb_eq, IH. split.
  - intros [-> ->]. reflexivity.
  - intros [= -> ->]. now split.
Qed.

(** X11: a model name that is not an alias of the table is left as it is,
    and resolving twice is resolving once: no internal name is itself an
    alias. *)
Theorem resolve_model_table :
  (forall name, name <> py "qwen2.5" -> resolve_model name = name)
  /\ (forall name, resolve_model (resolve_model name) = resolve_model name).
Proof.
  assert (H : forall name, name <> py "qwen2.5" -> resolve_model name = name).
  { intros name Hn. unfold resolve_model, MODEL_MAP. cbn [lookup].
    destruct (PyStr.eqb name (py "qwen2.5")) eqn:E; [|reflexivity].
    apply eqb_eq in E. contradiction. }
  split; [exact H|].
  intros name. destruct (PyStr.eqb name (py "qwen2.5")) eqn:E.
  - apply eqb_eq in E. subst name. reflexivity.
  - assert (Hn : name <> py "qwen2.5") by (intros ->; discriminate E).
    now rewrite !(H name Hn).
Qed.

Lemma resolve_model_table_witness :
  resolve_model (py "llama3") = py "llama3".
Proof.
  apply (proj1 resolve_model_table). discriminate.
Defined.

Lemma convert_messages_to_prompt_rejects_witness :
  exists e,
    @convert_messages_to_prompt sample_builtins
      [text_message (py "user") (py "hi"); VList []]
    = Raise e.
Proof.
  apply (@convert_messages_to_prompt_rejects sample_builtins). reflexivity.
Defined.

Lemma chat_completions_request_leg_witness :
  exists prompt,
    @convert_messages_to_prompt sample_builtins
      (ChatRequest.messages sample_chat_request) = Ok prompt
    /\ sent_upstream (@chat_completions sample_builtins sample_chat_request)
       = Some {| Payload.model := resolve_model (ChatRequest.model sample_chat_request);
                 Payload.prompt := prompt;
                 Payload.temperature := ChatRequest.temperature sample_chat_request;
                 Payload.max_tokens := ChatRequest.max_tokens sample_chat_request;
                 Payload.stream := ChatRequest.stream sample_chat_request |}.
Proof.
  apply (proj1 (@chat_completions_request_leg sample_builtins sample_chat_request)).
  reflexivity.
Defined.

Lemma ollama_response_accepts_witness :
  field (py "response")
    (VDict [(py "model", VStr (py "m"));
            (py "created_at", VInt 7);
            (py "response", VStr []);
            (py "done", VBool true)])
  = Some (VStr []).
Proof.
  refine (proj1 (proj2 (proj2
            (proj2 (ollama_response_accepts (py "m"))
               [(py "created", VInt 7)] _ eq_refl))) eq_refl).
Defined.

Lemma stream_relays_then_reports_witness :
  stream_chat_response
    {| Payload.model := py "m"; Payload.prompt := py "p";
       Payload.temperature := S754_zero false; Payload.max_tokens := 512;
       Payload.stream := true |}
    (StreamOpened 200 [] [py "data: a"; py "data: b"] None)
  = {| yielded := [py "data: a"; py "data: b"]; raised := None |}.
Proof.
  exact (proj1 stream_relays_then_reports
           {| Payload.model := py "m"; Payload.prompt := py "p";
              Payload.temperature := S754_zero false; Payload.max_tokens := 512;
              Payload.stream := true |}
           200%Z [] [py "data: a"; py "data: b"] eq_refl).
Defined.

(** ** The cleaner, step by step *)

Section MarkerScan.









End MarkerScan.

Section LabelRun.








End LabelRun.

Section LabelSplit.



End LabelSplit.



(** ** The prompt of the messages the compiler accepts *)

Section RenderedPrompt.

Context {B : Builtins}.

Lemma message_line_rendered msg :
  compilable msg = true ->
  message_line msg = Ok (Rendered.line msg ++ [NL]).
Proof.
  destruct msg as [| | | | | |d]; try discriminate.
  unfold compilable, role_ok. intros H. apply andb_true_iff in H as [Hr Hc].
  unfold message_line, dict_get, Rendered.line, PromptSpec.role_of,
    Rendered.content.
  destruct (lookup (py "role") d) as [[| | | |r|rl|rd]|]; try discriminate;
  destruct (lookup (py "content") d) as [[| | | |c|items|cd]|];
    cbn [bind method_upper format_field];
    rewrite ?(join_values_ok items Hc); cbn [bind format_field];
    now rewrite <- !app_assoc.
Qed.

End RenderedPrompt.

(** C9 (as amended): on every sequence of messages that are objects whose
    role is absent or a string and whose content, when it is a list, has
    only fragments that are skipped or carry a string text, the compiler
    raises nothing and returns the lines ["<ROLE-UPPERCASE>: <content>"]
    joined by newlines and trimmed, where a string content stands as it
    is, a list content is the newline-join of the texts of its fragments
    that carry one (the others are skipped), an absent content is empty
    and any other content is passed through as [format] gives it. *)
Theorem convert_messages_to_prompt_total {B : Builtins} (messages : list value) :
  forallb compilable messages = true ->
  convert_messages_to_prompt messages = Ok (Rendered.prompt messages).
Proof.
  intros H. unfold convert_messages_to_prompt, Rendered.prompt.
  rewrite (prompt_loop_lines (fun msg => Rendered.line msg ++ [NL])).
  2:{ intros msg Hin. apply message_line_rendered.
      rewrite forallb_forall in H. now apply H. }
  cbn [bind app]. f_equal.
  rewrite <- (map_map Rendered.line (fun l => l ++ [NL])), concat_lines.
  destruct (map Rendered.line messages); [reflexivity|].
  now apply strip_snoc_space.
Qed.

Lemma convert_messages_to_prompt_total_witness :
  @convert_messages_to_prompt sample_builtins
    [VDict [(py "content", VInt 5)];
     VDict [(py "role", VStr (py "user"));
            (py "content", VList [VNone; VDict [(py "text", VStr (py "a"))]])]]
  = Ok (py "USER: 5" ++ NL :: py "USER: a").
Proof.
  apply (@convert_messages_to_prompt_total sample_builtins). reflexivity.
Defined.

(** ** The model name on both routes *)

Section ModelName.

Lemma openai_response_returns model_name lm_response :
  reply_translatable lm_response = true ->
  exists body, openai_response model_name lm_response = Ok body.
Proof.
  unfold reply_translatable, openai_response, getitem.
  destruct lm_response as [| | | | | |d]; try discriminate.
  destruct (lookup (py "id") d); [|discriminate].
  destruct (lookup (py "created") d); [|discriminate].
  destruct (lookup (py "choices") d) as [all_choices|]; [|discriminate].
  destruct (lookup (py "usage") d); [|discriminate].
  intros H. destruct (iter_choices_accepts all_choices H) as (each & out & Hi & Ho).
  cbn [bind]. rewrite Hi. cbn [bind]. rewrite Ho. cbn [bind]. now eexists.
Qed.

Lemma ollama_response_returns model_name lm_response :
  generate_reply_ok lm_response = true ->
  exists body, ollama_response model_name lm_response = Ok body.
Proof.
  unfold generate_reply_ok, ollama_response, dict_get.
  destruct lm_response as [| | | | | |d]; try discriminate. cbn [bind].
  destruct (lookup (py "choices") d) as [[| | | | |[|[| | | | | |first] rest]|]|];
    try discriminate; intros _; cbn; now eexists.
Qed.

End ModelName.

(** C4: the alias table is consulted on the chat route only.  A chat
    request whose messages compile is sent upstream with the resolved
    model name, ["qwen2.5"] resolving to
    ["qwen2.5-coder-32b-instruct-mlx"], and the response to a translatable
    reply carries the resolved name; a simple-completion request is always
    sent with the caller's model name, which the response to an accepted
    reply echoes unchanged.  No payload and no body of either route
    carries another name. *)
Theorem model_alias_only_on_chat_route {B : Builtins} :
  resolve_model (py "qwen2.5") = py "qwen2.5-coder-32b-instruct-mlx"
  /\ (forall request : ChatRequest.t,
         forallb compilable (ChatRequest.messages request) = true ->
         exists payload,
           sent_upstream (chat_completions request) = Some payload
           /\ Payload.model payload = resolve_model (ChatRequest.model request))
  /\ (forall (request : ChatRequest.t) response lm_response,
         ChatRequest.stream request = false ->
         forallb compilable (ChatRequest.messages request) = true ->
         is_success (status_code response) = true ->
         json response = Some lm_response ->
         reply_translatable lm_response = true ->
         exists body,
           outcome_of (chat_completions request) (Responded response)
           = Some (Ok body)
           /\ field (py "model") body
              = Some (VStr (resolve_model (ChatRequest.model request))))
  /\ (forall request : OllamaRequest.t,
         exists payload,
           sent_upstream (generate_ollama request) = Some payload
           /\ Payload.model payload = OllamaRequest.model request)
  /\ (forall (request : OllamaRequest.t) response lm_response,
         OllamaRequest.stream request = false ->
         is_success (status_code response) = true ->
         json response = Some lm_response ->
         generate_reply_ok lm_response = true ->
         exists body,
           outcome_of (generate_ollama request) (Responded response)
           = Some (Ok body)
           /\ field (py "model") body = Some (VStr (OllamaRequest.model request)))
  /\ (forall (request : ChatRequest.t) payload,
         sent_upstream (chat_completions request) = Some payload ->
         Payload.model payload = resolve_model (ChatRequest.model request))
  /\ (forall (request : ChatRequest.t) outcome body,
         outcome_of (chat_completions request) outcome = Some (Ok body) ->
         field (py "model") body
         = Some (VStr (resolve_model (ChatRequest.model request))))
  /\ (forall (request : OllamaRequest.t) outcome body,
         outcome_of (generate_ollama request) outcome = Some (Ok body) ->
         field (py "model") body = Some (VStr (OllamaRequest.model request))).
Proof.
  split; [reflexivity|].
  split.
  { intros request Hc. destruct (prompt_loop_total _ Hc []) as [p Hp].
    unfold chat_completions, convert_messages_to_prompt. rewrite Hp. cbn [bind].
    destruct (ChatRequest.stream request); cbn [sent_upstream];
      eexists; split; reflexivity. }
  split.
  { intros request response lm_response Hs Hc Hok Hj Ht.
    destruct (prompt_loop_total _ Hc []) as [p Hp].
    destruct (openai_response_returns
                (resolve_model (ChatRequest.model request)) lm_response Ht)
      as [body Hb].
    exists body. unfold chat_completions, convert_messages_to_prompt.
    rewrite Hp. cbn [bind]. rewrite Hs. cbn [outcome_of post_and_check].
    rewrite Hok. cbn [bind]. unfold response_json. rewrite Hj. cbn [bind].
    rewrite Hb. split; [reflexivity|exact (openai_response_model _ _ _ Hb)]. }
  split.
  { intros request. unfold generate_ollama.
    destruct (OllamaRequest.stream request); cbn [sent_upstream];
      eexists; split; reflexivity. }
  split.
  { intros request response lm_response Hs Hok Hj Ht.
    destruct (ollama_response_returns (OllamaRequest.model request) lm_response Ht)
      as [body Hb].
    exists body. unfold generate_ollama. rewrite Hs.
    cbn [outcome_of post_and_check]. rewrite Hok. cbn [bind].
    unfold response_json. rewrite Hj. cbn [bind]. rewrite Hb.
    split; [reflexivity|exact (ollama_response_model _ _ _ Hb)]. }
  split.
  { intros request payload. unfold chat_completions.
    destruct (convert_messages_to_prompt (ChatRequest.messages request));
      [|discriminate].
    destruct (ChatRequest.stream request); cbn [sent_upstream];
      intros [= <-]; reflexivity. }
  split.
  { intros request outcome body. unfold chat_completions.
    destruct (convert_messages_to_prompt (ChatRequest.messages request));
      [|discriminate].
    destruct (ChatRequest.stream request); cbn [outcome_of]; [discriminate|].
    intros [= H].
    apply bind_ok in H as (response & _ & H).
    apply bind_ok in H as (lm_response & _ & H).
    exact (openai_response_model _ _ _ H). }
  intros request outcome body. unfold generate_ollama.
  destruct (OllamaRequest.stream request); cbn [outcome_of]; [discriminate|].
  intros [= H].
  apply bind_ok in H as (response & _ & H).
  apply bind_ok in H as (lm_response & _ & H).
  exact (ollama_response_model _ _ _ H).
Qed.

Lemma model_alias_only_on_chat_route_witness :
  (exists payload,
      sent_upstream (@chat_completions sample_builtins sample_chat_request)
      = Some payload
      /\ Payload.model payload = py "qwen2.5-coder-32b-instruct-mlx")
  /\ (exists body,
         outcome_of (@chat_completions sample_builtins sample_chat_request)
           (Responded
              {| status_code := 200; text := [];
                 json := Some (VDict [(py "id", VStr (py "cmpl-1"));
                                      (py "created", VInt 7);
                                      (py "choices", VList []);
                                      (py "usage", VDict [])]) |})
         = Some (Ok body)
         /\ field (py "model") body
            = Some (VStr (py "qwen2.5-coder-32b-instruct-mlx")))
  /\ (exists body,
         outcome_of (generate_ollama sample_generate_request)
           (Responded
              {| status_code := 200; text := [];
                 json := Some (VDict [(py "choices",
                                       VList [VDict [(py "text", VStr (py "ok"))]])]) |})
         = Some (Ok body)
         /\ field (py "model") body = Some (VStr (py "qwen2.5"))).
Proof.
  pose proof (@model_alias_only_on_chat_route sample_builtins)
    as (_ & Hsent & Hbody & _ & Hecho & _).
  split; [|split].
  - exact (Hsent sample_chat_request eq_refl).
  - eapply Hbody; reflexivity.
  - eapply Hecho; reflexivity.
Defined.
